(** * Realtime transcriber: the streaming session controller

    A shallow embedding of [Realtime-SDK/gpt_4o_transcribe_sdk.py]
    (class [RealtimeTranscriberSDK]) and the properties of its uplink pump
    ([stream_microphone]), downlink dispatcher ([handle_websocket_messages])
    and session controller ([connect_and_run], [run], [cleanup]).

    The transcriber object and everything it touches (console, channel,
    audio device) form one explicit state; every method is a computation
    in a state monad whose results are: a value, a raised Python exception,
    or a coroutine that is still suspended. *)

From Stdlib Require Import List String Ascii Bool ZArith NArith Lia.
From Stdlib.Strings Require Import Byte.
From Stdlib Require Import Floats.
Import ListNotations.
Local Open Scope string_scope.
Local Open Scope list_scope.

Set Implicit Arguments.
Set Warnings "-register-all".

(* ================================================================== *)
(** ** Python values *)

(** The newline character, Python's ["\n"]. *)
Definition nl : string := String (ascii_of_nat 10) EmptyString.

(** Objects that [json.loads] returns, and that the outbound messages are
    built from: [None], [bool], [int], [float], [str], [list], [dict].
    A dict keeps its items in insertion order. *)
Inductive value : Type :=
| VNone
| VBool (b : bool)
| VInt (n : Z)
| VFloat (f : float)
| VStr (s : string)
| VList (l : list value)
| VDict (d : list (string * value)).

(** Python truthiness, as used by [if transcript:] and the like. *)
Definition truthy (v : value) : bool :=
  match v with
  | VNone => false
  | VBool b => b
  | VInt n => negb (Z.eqb n 0)
  | VFloat f => negb (PrimFloat.eqb f 0%float)
  | VStr s => negb (String.eqb s "")
  | VList l => match l with [] => false | _ => true end
  | VDict d => match d with [] => false | _ => true end
  end.

(** [d.get(key, default)] on the items of a dict. *)
Fixpoint dict_get (d : list (string * value)) (key : string) (default : value)
  : value :=
  match d with
  | [] => default
  | (k, v) :: d' => if String.eqb k key then v else dict_get d' key default
  end.

(** [v == s] for a string literal [s]: only a [str] with the same
    characters compares equal. *)
Definition eq_str (v : value) (s : string) : bool :=
  match v with
  | VStr s' => String.eqb s' s
  | _ => false
  end.

(** The name of a value's Python type, as it appears in error messages. *)
Definition type_name (v : value) : string :=
  match v with
  | VNone => "NoneType"
  | VBool _ => "bool"
  | VInt _ => "int"
  | VFloat _ => "float"
  | VStr _ => "str"
  | VList _ => "list"
  | VDict _ => "dict"
  end.

(* ================================================================== *)
(** ** Exceptions *)

(** Classes of exception the program distinguishes. Only
    [JSONDecodeError] is matched by name; the others are caught, if at
    all, as [Exception]. *)
Inductive exc_class : Type :=
| JSONDecodeError
| AttributeError
| OSError
| ConnectionClosed
| OtherException (name : string).

(** An instance of (a subclass of) [Exception]: its class and [str(e)]. *)
Record exception : Type := Exception {
  exc_class_of : exc_class;
  exc_str : string
}.

(** What a [raise] carries. [CancelledError] and [KeyboardInterrupt]
    derive from [BaseException], not from [Exception]: an
    [except Exception] clause lets them through. *)
Inductive raised : Type :=
| Exc (e : exception)
| CancelledError
| KeyboardInterrupt.

Definition is_JSONDecodeError (e : exception) : bool :=
  match exc_class_of e with
  | JSONDecodeError => true
  | _ => false
  end.

(** The [AttributeError] of calling a method on an object without it. *)
Definition no_attribute (tyname attr : string) : exception :=
  Exception AttributeError
    ("'" ++ tyname ++ "' object has no attribute '" ++ attr ++ "'")%string.

(* ================================================================== *)
(** ** The console *)

(** [print] writes [str(x)] for each argument. For a [str] that is the
    string itself, for an exception its message; for any other object the
    text is whatever Python's [str] makes of it, which is kept symbolic
    here as [StrOf v]. The console is the sequence of pieces written. *)
Inductive chunk : Type :=
| Chars (s : string)
| StrOf (v : value).

Definition text : Type := list chunk.

(** [str(v)], also what an f-string puts in place of [{v}]. *)
Definition str (v : value) : text :=
  match v with
  | VStr s => [Chars s]
  | _ => [StrOf v]
  end.

(** [str(e)] for an exception object. *)
Definition str_exc (e : exception) : text := [Chars (exc_str e)].

(** The arguments of one [print] call, separated by single spaces. *)
Fixpoint sep_by_space (args : list text) : text :=
  match args with
  | [] => []
  | [a] => a
  | a :: rest => a ++ Chars " " :: sep_by_space rest
  end.

(** What [print(args..., end=end_)] writes. *)
Definition printed (args : list text) (end_ : string) : text :=
  sep_by_space args ++ [Chars end_].

(* ================================================================== *)
(** ** Module-level constants *)

Definition DEPLOYMENT_NAME : string := "gpt-4o-mini-transcribe".

(** Audio stream parameters (16-bit PCM, 24 kHz mono). [paInt16] is
    PortAudio's code for signed 16-bit samples. *)
Definition paInt16 : Z := 8.
Definition RATE : Z := 24000.
Definition CHANNELS : Z := 1.
Definition FORMAT : Z := paInt16.
Definition CHUNK : Z := 1024.

(* ================================================================== *)
(** ** The transcriber and its surroundings *)

(** Library objects held by the transcriber; each of them is truthy. *)
Inductive handle : Type :=
| PyAudioObject
| StreamObject
| Connection.

(** An audio frame: the bytes one [stream.read] returns. *)
Definition frame : Type := list byte.

(** How one [stream.read(CHUNK, exception_on_overflow=False)] ends. *)
Inductive read_result : Type :=
| ReadOk (audio_data : frame)
| ReadRaises (r : raised).

(** How one [await websocket.send(...)] ends. *)
Inductive send_result : Type :=
| SendOk
| SendRaises (r : raised).

(** Calls made on the audio device, in order. Opening the stream and
    reading from it can fail; the release calls ([stop_stream], [close],
    [terminate]) are taken to return. *)
Inductive device_op : Type :=
| DevOpen (format channels rate frames_per_buffer : Z)
| DevRead (r : read_result)
| DevStopStream
| DevCloseStream
| DevTerminate.

(** Calls made on the transport channel, in order. A message is recorded
    as the object handed to [json.dumps]; the wire text is its JSON
    serialisation. *)
Inductive channel_op : Type :=
| ChSend (payload : value)
| ChClose.

(** The attributes of [self], followed by the observable surroundings. *)
Record world : Type := World {
  audio_interface : option handle;
  stream : option handle;
  is_streaming : bool;
  websocket : option handle;
  console : text;
  channel : list channel_op;
  device : list device_op
}.

(** [RealtimeTranscriberSDK.__init__], in surroundings where nothing has
    happened yet. *)
Definition init : world :=
  {| audio_interface := Some PyAudioObject;
     stream := None;
     is_streaming := false;
     websocket := None;
     console := [];
     channel := [];
     device := [] |}.

(** Truthiness of an attribute holding [None] or a library object. *)
Definition present (o : option handle) : bool :=
  match o with
  | Some _ => true
  | None => false
  end.

(* ================================================================== *)
(** ** Computations *)

(** A method call either returns, raises, or is a coroutine that stays
    suspended at an [await] (or blocked in a read) for as long as the
    environment has been described. *)
Inductive outcome (A : Type) : Type :=
| Return (a : A)
| Raise (r : raised)
| Suspended.

Arguments Raise {A} r.
Arguments Suspended {A}.

Definition M (A : Type) : Type := world -> outcome A * world.

Definition ret {A} (a : A) : M A := fun w => (Return a, w).

Definition bind {A B} (c : M A) (k : A -> M B) : M B :=
  fun w =>
    match c w with
    | (Return a, w') => k a w'
    | (Raise r, w') => (Raise r, w')
    | (Suspended, w') => (Suspended, w')
    end.

Definition raise {A} (r : raised) : M A := fun w => (Raise r, w).

Definition suspend {A} : M A := fun w => (Suspended, w).

Notation "x <- c ;; k" := (bind c (fun x => k))
  (at level 61, c at next level, right associativity).
Notation "c ;; k" := (bind c (fun _ => k))
  (at level 61, right associativity).

(** [try: body except Exception as e: handler e]. *)
Definition try_except {A} (body : M A) (handler : exception -> M A) : M A :=
  fun w =>
    match body w with
    | (Raise (Exc e), w') => handler e w'
    | other => other
    end.

(** [try: body except asyncio.CancelledError: pass]. *)
Definition try_except_cancelled (body : M unit) : M unit :=
  fun w =>
    match body w with
    | (Raise CancelledError, w') => (Return tt, w')
    | other => other
    end.

(** [try: body except KeyboardInterrupt: handler]. *)
Definition try_except_interrupt (body : M unit) (handler : M unit) : M unit :=
  fun w =>
    match body w with
    | (Raise KeyboardInterrupt, w') => handler w'
    | other => other
    end.

(** [try: body finally: final]. The final block runs when the body
    returns or raises; a body that never gets that far never reaches it.
    An exception of the final block replaces the body's outcome. *)
Definition try_finally {A} (body : M A) (final : M unit) : M A :=
  fun w =>
    match body w with
    | (Suspended, w') => (Suspended, w')
    | (o, w') =>
        match final w' with
        | (Return _, w'') => (o, w'')
        | (Raise r, w'') => (Raise r, w'')
        | (Suspended, w'') => (Suspended, w'')
        end
    end.

(** State after a computation, and its outcome. *)
Definition exec {A} (c : M A) (w : world) : world := snd (c w).
Definition result {A} (c : M A) (w : world) : outcome A := fst (c w).

(** *** Primitive effects *)

Definition set_is_streaming (b : bool) : M unit :=
  fun w => (Return tt,
            {| audio_interface := audio_interface w; stream := stream w;
               is_streaming := b; websocket := websocket w;
               console := console w; channel := channel w;
               device := device w |}).

Definition set_websocket (o : option handle) : M unit :=
  fun w => (Return tt,
            {| audio_interface := audio_interface w; stream := stream w;
               is_streaming := is_streaming w; websocket := o;
               console := console w; channel := channel w;
               device := device w |}).

Definition set_stream (o : option handle) : M unit :=
  fun w => (Return tt,
            {| audio_interface := audio_interface w; stream := o;
               is_streaming := is_streaming w; websocket := websocket w;
               console := console w; channel := channel w;
               device := device w |}).

(** [print(args..., end=end_)]. *)
Definition py_print (args : list text) (end_ : string) : M unit :=
  fun w => (Return tt,
            {| audio_interface := audio_interface w; stream := stream w;
               is_streaming := is_streaming w; websocket := websocket w;
               console := console w ++ printed args end_;
               channel := channel w; device := device w |}).

Definition device_call (op : device_op) : M unit :=
  fun w => (Return tt,
            {| audio_interface := audio_interface w; stream := stream w;
               is_streaming := is_streaming w; websocket := websocket w;
               console := console w; channel := channel w;
               device := device w ++ [op] |}).

Definition channel_call (op : channel_op) : M unit :=
  fun w => (Return tt,
            {| audio_interface := audio_interface w; stream := stream w;
               is_streaming := is_streaming w; websocket := websocket w;
               console := console w; channel := channel w ++ [op];
               device := device w |}).

(* ================================================================== *)
(** ** Base64 *)

(** Python's [base64] module, as far as the program uses it:
    [base64.b64encode(data).decode('utf-8')] is the standard Base64 text
    of [data] (RFC 4648 alphabet, padded with ["="]). [b64decode] is its
    inverse, used to state that the text determines the bytes. *)
Module base64.

Local Open Scope N_scope.

Definition alphabet : string :=
  "ABCDEFGHIJKLMNOPQRSTUVWXYZabcdefghijklmnopqrstuvwxyz0123456789+/".

Definition pad : ascii := "="%char.

(** The character for a 6-bit group. *)
Definition digit (n : N) : ascii :=
  match String.get (N.to_nat n) alphabet with
  | Some c => c
  | None => pad
  end.

Fixpoint b64encode (data : list byte) : string :=
  match data with
  | [] => EmptyString
  | [a] =>
      let x := Byte.to_N a in
      String (digit (x / 4))
        (String (digit (x mod 4 * 16))
           (String pad (String pad EmptyString)))
  | [a; b] =>
      let x := Byte.to_N a in
      let y := Byte.to_N b in
      String (digit (x / 4))
        (String (digit (x mod 4 * 16 + y / 16))
           (String (digit (y mod 16 * 4))
              (String pad EmptyString)))
  | a :: b :: c :: rest =>
      let x := Byte.to_N a in
      let y := Byte.to_N b in
      let z := Byte.to_N c in
      String (digit (x / 4))
        (String (digit (x mod 4 * 16 + y / 16))
           (String (digit (y mod 16 * 4 + z / 64))
              (String (digit (z mod 64)) (b64encode rest))))
  end.

(** Position of a character in a string, counted from [i]. *)
Fixpoint index_from (c : ascii) (s : string) (i : N) : option N :=
  match s with
  | EmptyString => None
  | String c' s' => if Ascii.eqb c c' then Some i else index_from c s' (i + 1)
  end.

(** The 6-bit group a character stands for. *)
Definition sextet (c : ascii) : option N := index_from c alphabet 0.

Definition bytes1 (v1 v2 : N) : option (list byte) :=
  match Byte.of_N (v1 * 4 + v2 / 16) with
  | Some a => Some [a]
  | None => None
  end.

Definition bytes2 (v1 v2 v3 : N) : option (list byte) :=
  match Byte.of_N (v1 * 4 + v2 / 16), Byte.of_N (v2 mod 16 * 16 + v3 / 4) with
  | Some a, Some b => Some [a; b]
  | _, _ => None
  end.

Definition bytes3 (v1 v2 v3 v4 : N) : option (list byte) :=
  match Byte.of_N (v1 * 4 + v2 / 16), Byte.of_N (v2 mod 16 * 16 + v3 / 4),
        Byte.of_N (v3 mod 4 * 64 + v4) with
  | Some a, Some b, Some c => Some [a; b; c]
  | _, _, _ => None
  end.

Fixpoint b64decode (s : string) : option (list byte) :=
  match s with
  | EmptyString => Some []
  | String c1 (String c2 (String c3 (String c4 rest))) =>
      match sextet c1, sextet c2 with
      | Some v1, Some v2 =>
          match sextet c3, sextet c4 with
          | Some v3, Some v4 =>
              match bytes3 v1 v2 v3 v4, b64decode rest with
              | Some l, Some l' => Some (l ++ l')
              | _, _ => None
              end
          | Some v3, None =>
              if Ascii.eqb c4 pad && String.eqb rest EmptyString
              then bytes2 v1 v2 v3 else None
          | None, _ =>
              if Ascii.eqb c3 pad && Ascii.eqb c4 pad
                 && String.eqb rest EmptyString
              then bytes1 v1 v2 else None
          end
      | _, _ => None
      end
  | _ => None
  end.

End base64.

(* ================================================================== *)
(** ** The audio device and the channel *)

(** How [audio_interface.open(...)] and [websockets.connect(...)] end. *)
Inductive open_result : Type :=
| OpenOk
| OpenRaises (r : raised).

(** [self.stream.read(CHUNK, exception_on_overflow=False)]. *)
Definition stream_read (r : read_result) : M frame :=
  fun w =>
    match stream w with
    | None => (Raise (Exc (no_attribute "NoneType" "read")), w)
    | Some _ =>
        (device_call (DevRead r) ;;
         match r with
         | ReadOk audio_data => ret audio_data
         | ReadRaises x => raise x
         end) w
    end.

(** [await self.websocket.send(json.dumps(payload))]. *)
Definition websocket_send (payload : value) (r : send_result) : M unit :=
  fun w =>
    match websocket w with
    | None => (Raise (Exc (no_attribute "NoneType" "send")), w)
    | Some _ =>
        (channel_call (ChSend payload) ;;
         match r with
         | SendOk => ret tt
         | SendRaises x => raise x
         end) w
    end.

(** [async with websockets.connect(...) as websocket: body websocket].
    Leaving the block, by return or by exception, closes the connection. *)
Definition async_with_connect (r : open_result) (body : handle -> M unit)
  : M unit :=
  match r with
  | OpenRaises x => raise x
  | OpenOk => try_finally (body Connection) (channel_call ChClose)
  end.

(* ================================================================== *)
(** ** RealtimeTranscriberSDK *)

(** [setup_audio_stream]. *)
Definition setup_audio_stream (r : open_result) : M unit :=
  fun w =>
    match audio_interface w with
    | None => (Raise (Exc (no_attribute "NoneType" "open")), w)
    | Some _ =>
        (device_call (DevOpen FORMAT CHANNELS RATE CHUNK) ;;
         match r with
         | OpenOk => set_stream (Some StreamObject)
         | OpenRaises x => raise x
         end) w
    end.

(** [cleanup]. *)
Definition cleanup : M unit :=
  set_is_streaming false ;;
  (fun w =>
     if present (stream w)
     then (device_call DevStopStream ;; device_call DevCloseStream) w
     else (Return tt, w)) ;;
  (fun w =>
     if present (audio_interface w)
     then device_call DevTerminate w
     else (Return tt, w)).

(** The dict built by [send_session_config]. *)
Definition session_config : value :=
  VDict
    [("type", VStr "transcription_session.update");
     ("session",
      VDict
        [("input_audio_format", VStr "pcm16");
         ("input_audio_transcription",
          VDict [("model", VStr DEPLOYMENT_NAME);
                 ("prompt", VStr "Respond in English.");
                 ("language", VStr "en")]);
         ("input_audio_noise_reduction", VDict [("type", VStr "near_field")]);
         ("turn_detection",
          VDict [("type", VStr "server_vad");
                 ("threshold", VFloat 0.5%float);
                 ("prefix_padding_ms", VInt 300);
                 ("silence_duration_ms", VInt 200)])])].

(** [send_session_config]. *)
Definition send_session_config (r : send_result) : M unit :=
  websocket_send session_config r.

(** *** The uplink pump: [stream_microphone] *)

(** What the environment does in one pass of the pump's loop: how the
    read ends and, if the pass gets that far, how the send ends. *)
Record pump_io : Type := PumpIO {
  io_read : read_result;
  io_send : send_result
}.

(** The message built from one frame. *)
Definition audio_append (audio_data : frame) : value :=
  let audio_base64 := base64.b64encode audio_data in
  VDict [("type", VStr "input_audio_buffer.append");
         ("audio", VStr audio_base64)].

(** The body of the [while] loop. *)
Definition pump_body (io : pump_io) : M unit :=
  audio_data <- stream_read (io_read io) ;;
  let message := audio_append audio_data in
  websocket_send message (io_send io).

(** The loop test, [self.is_streaming and self.websocket]. *)
Definition pump_test (w : world) : bool :=
  is_streaming w && present (websocket w).

(** [while self.is_streaming and self.websocket: ...], run against the
    environment's answers for the passes to come; when they run out with
    the test still true the coroutine is left suspended in its next read. *)
Fixpoint pump_loop (ios : list pump_io) : M unit :=
  fun w =>
    if pump_test w then
      match ios with
      | [] => (Suspended, w)
      | io :: ios' => (pump_body io ;; pump_loop ios') w
      end
    else (Return tt, w).

(** The [except Exception as e] clause of [stream_microphone]. *)
Definition audio_streaming_error (e : exception) : M unit :=
  py_print [[Chars "Audio streaming error:"]; str_exc e] nl ;;
  set_is_streaming false.

Definition stream_microphone (ios : list pump_io) : M unit :=
  try_except (pump_loop ios) audio_streaming_error.

(** *** The downlink dispatcher: [handle_websocket_messages] *)

(** An inbound message, represented by what [json.loads] makes of it:
    the decoded document, or the exception it raises
    ([json.JSONDecodeError] for text that is not JSON). *)
Inductive message : Type :=
| Document (data : value)
| Undecodable (e : exception).

(** A message that is not JSON. *)
Definition malformed (msg : string) : message :=
  Undecodable (Exception JSONDecodeError msg).

Definition json_loads (m : message) : M value :=
  match m with
  | Document data => ret data
  | Undecodable e => raise (Exc e)
  end.

(** [data.get(key, default)]: only a dict has the method. *)
Definition get (data : value) (key : string) (default : value) : M value :=
  match data with
  | VDict d => ret (dict_get d key default)
  | _ => raise (Exc (no_attribute (type_name data) "get"))
  end.

Definition TRANSCRIPTION_DELTA : string :=
  "conversation.item.input_audio_transcription.delta".
Definition TRANSCRIPTION_COMPLETED : string :=
  "conversation.item.input_audio_transcription.completed".

(** [if v: body]. *)
Definition when_truthy (v : value) (body : M unit) : M unit :=
  if truthy v then body else ret tt.

(** The [if]/[elif] chain on the event type. *)
Definition handle_kind (data event_type : value) : M unit :=
  if eq_str event_type TRANSCRIPTION_DELTA then
    transcript_piece <- get data "delta" (VStr "") ;;
    when_truthy transcript_piece (py_print [str transcript_piece] " ")
  else if eq_str event_type TRANSCRIPTION_COMPLETED then
    transcript <- get data "transcript" (VStr "") ;;
    when_truthy transcript (py_print [Chars nl :: str transcript] nl)
  else if eq_str event_type "response.text.delta" then
    delta_text <- get data "delta" (VStr "") ;;
    when_truthy delta_text (py_print [Chars "📥: " :: str delta_text] nl)
  else if eq_str event_type "response.text.done" then
    final_text <- get data "text" (VStr "") ;;
    when_truthy final_text (py_print [[Chars "📨:"]; str final_text] nl)
  else if eq_str event_type "item" then
    transcript <- get data "item" (VStr "") ;;
    when_truthy transcript
      (py_print [[Chars (nl ++ "Final transcript:")%string]; str transcript] nl)
  else if eq_str event_type "error" then
    py_print [[Chars "Error event:"]; str data] nl
  else ret tt.

(** The statements of the inner [try] block that follow [json.loads]. *)
Definition handle_event (data : value) : M unit :=
  event_type <- get data "type" (VStr "") ;;
  py_print [[Chars "Event type:"]; str event_type] nl ;;
  handle_kind data event_type.

(** The two [except] clauses of the inner [try], tried in order. *)
Definition message_error (e : exception) : M unit :=
  if is_JSONDecodeError e then ret tt
  else py_print [Chars "Error processing message: " :: str_exc e] nl.

(** The body of the [async for] loop. *)
Definition handle_message (m : message) : M unit :=
  try_except (data <- json_loads m ;; handle_event data) message_error.

(** What the channel's iterator does when asked for the next message. *)
Inductive inbound : Type :=
| Recv (m : message)
| EndOfStream
| RecvRaises (r : raised).

(** [async for message in self.websocket: ...], run against what arrives;
    when that runs out the coroutine is left waiting for a message. *)
Fixpoint dispatch_loop (inbox : list inbound) : M unit :=
  match inbox with
  | [] => suspend
  | Recv m :: rest => handle_message m ;; dispatch_loop rest
  | EndOfStream :: _ => ret tt
  | RecvRaises r :: _ => raise r
  end.

(** Iterating over [None] is a [TypeError]. *)
Definition aiter : M unit :=
  fun w =>
    match websocket w with
    | Some _ => (Return tt, w)
    | None =>
        (Raise (Exc (Exception (OtherException "TypeError")
           "'async for' requires an object with __aiter__ method, got NoneType")),
         w)
    end.

(** The outer [except Exception as e] clause. *)
Definition websocket_error (e : exception) : M unit :=
  py_print [Chars "Error handling WebSocket messages: " :: str_exc e] nl.

Definition handle_websocket_messages (inbox : list inbound) : M unit :=
  try_except (aiter ;; dispatch_loop inbox) websocket_error.

(** *** Tasks and the wait *)

(** The state of a task created with [asyncio.create_task]. *)
Inductive task : Type :=
| Running
| Returned
| Failed (r : raised).

(** One pass of the pump's loop, as the task takes it when it is resumed:
    the test, the read, and the send together with the way it ends. The
    answer is whether the loop goes on. *)
Definition pump_step (io : pump_io) : M bool :=
  try_except
    (fun w =>
       if pump_test w then (pump_body io ;; ret true) w
       else (Return false, w))
    (fun e => audio_streaming_error e ;; ret false).

(** One pass of the dispatcher's loop: the iterator answers, and a
    message it yields is handled. *)
Definition dispatch_step (i : inbound) : M bool :=
  try_except
    match i with
    | Recv m => handle_message m ;; ret true
    | EndOfStream => ret false
    | RecvRaises r => raise r
    end
    (fun e => websocket_error e ;; ret false).

(** A step taken inside a task: an exception ends the task and is kept
    in it instead of reaching the code that resumed it. *)
Definition turn (step : M bool) : M task :=
  fun w =>
    match step w with
    | (Return true, w') => (Return Running, w')
    | (Return false, w') => (Return Returned, w')
    | (Raise r, w') => (Return (Failed r), w')
    | (Suspended, w') => (Return Running, w')
    end.

(** [asyncio.gather(audio_task, message_task)]: its result is there when
    both tasks have returned; the first exception of either task is
    raised at once. Otherwise the caller stays suspended. *)
Definition gather (audio_task message_task : task) : outcome unit :=
  match audio_task, message_task with
  | Failed r, _ => Raise r
  | _, Failed r => Raise r
  | Returned, Returned => Return tt
  | _, _ => Suspended
  end.

(** What happens, one thing at a time, while the controller waits: one of
    the two tasks is resumed (with the environment's answers for that
    pass), code outside the two tasks clears the flag, or the wait itself
    is cancelled. *)
Inductive event : Type :=
| PumpTurn (io : pump_io)
| DispatcherTurn (i : inbound)
| ExternalStop
| CancelWait.

(** [await asyncio.gather(audio_task, message_task)] under a schedule. A
    task that has finished takes no further turn. *)
Fixpoint await_gather (sched : list event) (audio_task message_task : task)
  : M unit :=
  match gather audio_task message_task with
  | Return _ => ret tt
  | Raise r => raise r
  | Suspended =>
      match sched with
      | [] => suspend
      | PumpTurn io :: rest =>
          match audio_task with
          | Running =>
              audio_task' <- turn (pump_step io) ;;
              await_gather rest audio_task' message_task
          | _ => await_gather rest audio_task message_task
          end
      | DispatcherTurn i :: rest =>
          match message_task with
          | Running =>
              message_task' <- turn (dispatch_step i) ;;
              await_gather rest audio_task message_task'
          | _ => await_gather rest audio_task message_task
          end
      | ExternalStop :: rest =>
          set_is_streaming false ;;
          await_gather rest audio_task message_task
      | CancelWait :: _ => raise CancelledError
      end
  end.

(** *** The session controller: [connect_and_run] and [run] *)

(** Everything the surroundings decide in one run. *)
Record environment : Type := Environment {
  env_open : open_result;
  env_connect : open_result;
  env_config : send_result;
  env_schedule : list event
}.

Definition connect_and_run (env : environment) : M unit :=
  try_finally
    (try_except
       (py_print [[Chars "Connecting to Azure OpenAI Realtime API..."]] nl ;;
        async_with_connect (env_connect env)
          (fun websocket =>
             set_websocket (Some websocket) ;;
             set_is_streaming true ;;
             py_print [[Chars "Connected! Start speaking..."]] nl ;;
             send_session_config (env_config env) ;;
             try_except_cancelled
               (await_gather (env_schedule env) Running Running)))
       (fun e => py_print [Chars "Connection error: " :: str_exc e] nl))
    cleanup.

Definition run (env : environment) : M unit :=
  try_finally
    (try_except_interrupt
       (setup_audio_stream (env_open env) ;;
        connect_and_run env)
       (py_print [[Chars "Interrupted by user. Closing..."]] nl))
    cleanup.

(* ================================================================== *)
(** ** Observations used in the statements *)

(** The payloads handed to [websocket.send], in order. *)
Fixpoint sent (ops : list channel_op) : list value :=
  match ops with
  | [] => []
  | ChSend payload :: ops' => payload :: sent ops'
  | ChClose :: ops' => sent ops'
  end.

(** The frames that [stream.read] has returned, in order. *)
Fixpoint frames_read (ops : list device_op) : list frame :=
  match ops with
  | [] => []
  | DevRead (ReadOk audio_data) :: ops' => audio_data :: frames_read ops'
  | _ :: ops' => frames_read ops'
  end.

(** The device calls one [cleanup] makes on a given transcriber. *)
Definition release_ops (w : world) : list device_op :=
  (if present (stream w) then [DevStopStream; DevCloseStream] else [])
  ++ (if present (audio_interface w) then [DevTerminate] else []).

(** How often a device call occurs in a log. *)
Definition device_op_eqb (a b : device_op) : bool :=
  match a, b with
  | DevOpen _ _ _ _, DevOpen _ _ _ _ => true
  | DevStopStream, DevStopStream => true
  | DevCloseStream, DevCloseStream => true
  | DevTerminate, DevTerminate => true
  | _, _ => false
  end.

Definition count_op (op : device_op) (ops : list device_op) : nat :=
  List.length (List.filter (device_op_eqb op) ops).

(** A pass of the pump in which the read returns a frame and the send
    goes through. *)
Definition ok_io (audio_data : frame) : pump_io :=
  PumpIO (ReadOk audio_data) SendOk.

(** A pass of the pump in which the read or the send fails with the
    exception [e]. *)
Definition fails_with (io : pump_io) (e : exception) : Prop :=
  io_read io = ReadRaises (Exc e)
  \/ (exists audio_data, io_read io = ReadOk audio_data)
     /\ io_send io = SendRaises (Exc e).

(** The device and channel calls of one pass of the pump. *)
Definition pass_reads (io : pump_io) : list device_op := [DevRead (io_read io)].

Definition pass_sends (io : pump_io) : list channel_op :=
  match io_read io with
  | ReadOk audio_data => [ChSend (audio_append audio_data)]
  | ReadRaises _ => []
  end.

(** The event type the dispatcher reads from a decoded dict. *)
Definition event_type_of (d : list (string * value)) : value :=
  dict_get d "type" (VStr "").

(** What the kind-specific handling of a decoded dict writes. *)
Definition kind_output (d : list (string * value)) : text :=
  console (exec (handle_kind (VDict d) (event_type_of d)) init).

(** A decoded event of the given kind. *)
Definition is_kind (kind : string) (d : list (string * value)) : Prop :=
  event_type_of d = VStr kind.

(** A transcription-delta event carrying the fragment [piece]. *)
Definition is_delta (d : list (string * value)) (piece : string) : Prop :=
  is_kind TRANSCRIPTION_DELTA d /\ dict_get d "delta" (VStr "") = VStr piece.

(** A transcription-completed event carrying the transcript [t]. *)
Definition is_completed (d : list (string * value)) (t : string) : Prop :=
  is_kind TRANSCRIPTION_COMPLETED d
  /\ dict_get d "transcript" (VStr "") = VStr t.

(** The report the dispatcher prints when handling a message fails. *)
Definition processing_error (e : exception) : text :=
  printed [Chars "Error processing message: " :: str_exc e] nl.

(** The line the dispatcher prints for every event. *)
Definition event_type_line (event_type : value) : text :=
  printed [[Chars "Event type:"]; str event_type] nl.

(** The console ends with the string [s] followed by a newline. *)
Definition ends_with_line (s : string) (out : text) : Prop :=
  exists before, out = before ++ [Chars s; Chars nl].

(** The inbound sequence that delivers the given documents and then
    ends. *)
Definition deliver (docs : list value) : list inbound :=
  List.map (fun data => Recv (Document data)) docs ++ [EndOfStream].

(** A transcriber that holds an open connection and is streaming. *)
Definition connected : world :=
  exec (set_websocket (Some Connection) ;; set_is_streaming true) init.

(** The world after some more text has been written to the console. *)
Definition write (out : text) (w : world) : world :=
  {| audio_interface := audio_interface w; stream := stream w;
     is_streaming := is_streaming w; websocket := websocket w;
     console := console w ++ out; channel := channel w;
     device := device w |}.

(** A transcriber that is streaming: connection and audio stream open. *)
Definition ready : world :=
  exec (set_stream (Some StreamObject)) connected.

(** The world after more calls on the device and on the channel. *)
Definition record_ops (dev : list device_op) (ch : list channel_op)
           (w : world) : world :=
  {| audio_interface := audio_interface w; stream := stream w;
     is_streaming := is_streaming w; websocket := websocket w;
     console := console w; channel := channel w ++ ch;
     device := device w ++ dev |}.

(** The world after the flag has been cleared. *)
Definition stopped (w : world) : world := exec (set_is_streaming false) w.

(** The report of the pump's [except] clause. *)
Definition streaming_error (e : exception) : text :=
  printed [[Chars "Audio streaming error:"]; str_exc e] nl.

(** A device call that is a read. *)
Definition is_read (op : device_op) : bool :=
  match op with
  | DevRead _ => true
  | _ => false
  end.

(** How the world can differ between two moments of the controller's
    wait: the handles are the same, the device has only been read from,
    and the channel has been handed exactly one audio-append message per
    frame read, in the order of the reads. *)
Definition during_wait (w w' : world) : Prop :=
  audio_interface w' = audio_interface w
  /\ stream w' = stream w
  /\ websocket w' = websocket w
  /\ exists reads,
       forallb is_read reads = true
       /\ device w' = device w ++ reads
       /\ channel w' = channel w
                       ++ List.map (fun f => ChSend (audio_append f))
                            (frames_read reads).

(** The world in which [connect_and_run] starts its two tasks: the
    connection is open, the flag is set and the configuration sent. *)
Definition at_wait (w : world) : world :=
  exec (py_print [[Chars "Connecting to Azure OpenAI Realtime API..."]] nl ;;
        set_websocket (Some Connection) ;;
        set_is_streaming true ;;
        py_print [[Chars "Connected! Start speaking..."]] nl ;;
        channel_call (ChSend session_config)) w.

(** The world after the connection has been closed, and after
    [cleanup]. *)
Definition closed (w : world) : world := exec (channel_call ChClose) w.
Definition released (w : world) : world := exec cleanup w.

(** The report of [connect_and_run]'s [except] clause. *)
Definition connection_error (e : exception) : text :=
  printed [Chars "Connection error: " :: str_exc e] nl.

(** A transcriber whose audio stream has been set up. *)
Definition set_up : world := exec (setup_audio_stream OpenOk) init.

(** An environment in which device and connection open and the
    configuration goes out, with the given schedule for the wait. *)
Definition session (sched : list event) : environment :=
  {| env_open := OpenOk; env_connect := OpenOk; env_config := SendOk;
     env_schedule := sched |}.

(** A device error at the pump's first read. *)
Definition device_fails (e : exception) : event :=
  PumpTurn (PumpIO (ReadRaises (Exc e)) SendOk).

(** The dispatcher receives the given messages, one turn each. *)
Definition receive (ms : list message) : list event :=
  List.map (fun m => DispatcherTurn (Recv m)) ms.

(** The traffic of a world: the frames read so far and the payloads sent
    so far. *)
Definition traffic (w : world) : list frame * list value :=
  (frames_read (device w), sent (channel w)).

(** The answers the environment holds ready for the pump's passes, in
    the order of the schedule. *)
Fixpoint pump_passes (sched : list event) : list pump_io :=
  match sched with
  | [] => []
  | PumpTurn io :: rest => io :: pump_passes rest
  | _ :: rest => pump_passes rest
  end.

(** A pass of the pump in which the read returns a frame and the send of
    its message raises. *)
Definition send_fails (audio_data : frame) (r : raised) : pump_io :=
  PumpIO (ReadOk audio_data) (SendRaises r).

(** The given frames are those of the pump's first passes, and in each
    of these passes the send has returned. *)
Definition sends_returned (sched : list event) (frames : list frame) : Prop :=
  exists rest, pump_passes sched = List.map ok_io frames ++ rest.

(** What handling one message writes. *)
Definition output_of (m : message) : text :=
  console (exec (handle_message m) init).

(** What the dispatcher writes for a sequence of messages. *)
Definition outputs_of (ms : list message) : text :=
  List.flat_map output_of ms.

(* ================================================================== *)
(** ** Module-level configuration *)

(** [os.environ], after [load_dotenv('.env')]. *)
Definition environ : Type := list (string * string).

(** [os.environ.get(name)]. *)
Fixpoint environ_get (env : environ) (name : string) : option string :=
  match env with
  | [] => None
  | (k, v) :: env' => if String.eqb k name then Some v else environ_get env' name
  end.

(** Truthiness of what [os.environ.get] returns: [None] and the empty
    string are false. *)
Definition is_set (v : option string) : bool :=
  match v with
  | Some s => negb (String.eqb s "")
  | None => false
  end.

(** [s.replace(old, new)] for a non-empty [old]: the occurrences of
    [old] are found from left to right, without overlap. [skip] counts
    the characters of a found occurrence still to be passed over. *)
Fixpoint replace_from (old new s : string) (skip : nat) : string :=
  match s with
  | EmptyString => EmptyString
  | String c s' =>
      match skip with
      | S k => replace_from old new s' k
      | O =>
          if String.prefix old s
          then (new ++ replace_from old new s' (String.length old - 1))%string
          else String c (replace_from old new s' 0)
      end
  end.

(** [s.replace("", new)] puts [new] before every character and at the
    end. *)
Fixpoint replace_empty (new s : string) : string :=
  match s with
  | EmptyString => new
  | String c s' => (new ++ String c (replace_empty new s'))%string
  end.

Definition replace (s old new : string) : string :=
  if String.eqb old "" then replace_empty new s else replace_from old new s 0.

(** [old in s]. *)
Fixpoint occurs (old s : string) : bool :=
  match s with
  | EmptyString => String.prefix old EmptyString
  | String _ s' => String.prefix old s || occurs old s'
  end.

(** The f-string that builds [websocket_url] from the endpoint. *)
Definition websocket_url_of (endpoint : string) : string :=
  (replace endpoint "https" "wss"
   ++ "/openai/realtime?api-version=2025-04-01-preview&deployment="
   ++ DEPLOYMENT_NAME)%string.

Definition RuntimeError (msg : string) : exception :=
  Exception (OtherException "RuntimeError") msg.

Definition KEY_MISSING : exception :=
  RuntimeError "❌ AZURE_OPENAI_STT_TTS_KEY is missing!".
Definition ENDPOINT_MISSING : exception :=
  RuntimeError "❌ AZURE_OPENAI_STT_TTS_ENDPOINT is missing!".

(** The keyword arguments of the [AzureOpenAI(...)] call. *)
Record client_args : Type := ClientArgs {
  api_key : string;
  api_version : string;
  azure_endpoint : string
}.

(** How the SDK's constructor ends on given arguments: it returns the
    client, or it raises (on an endpoint that is not a URL, for one). *)
Inductive construct_result : Type :=
| Constructed
| ConstructRaises (r : raised).

(** The module's globals once it has been imported. The client is
    represented by the arguments it was built from. *)
Record settings : Type := Settings {
  AZURE_OPENAI_API_KEY : string;
  AZURE_OPENAI_ENDPOINT : string;
  client : client_args;
  websocket_url : string;
  headers : list (string * string)
}.

(** The statements at module level: the two variables are read, each is
    checked in turn, the SDK client is constructed, and the URL and the
    headers are built. An exception of the constructor ends the import
    before the URL is built. *)
Definition import_module (AzureOpenAI : client_args -> construct_result)
           (env : environ) : settings + raised :=
  let key := environ_get env "AZURE_OPENAI_STT_TTS_KEY" in
  let endpoint := environ_get env "AZURE_OPENAI_STT_TTS_ENDPOINT" in
  match key with
  | None => inr (Exc KEY_MISSING)
  | Some k =>
      if String.eqb k "" then inr (Exc KEY_MISSING)
      else
        match endpoint with
        | None => inr (Exc ENDPOINT_MISSING)
        | Some ep =>
            if String.eqb ep "" then inr (Exc ENDPOINT_MISSING)
            else
              let args := {| api_key := k;
                             api_version := "2025-04-01-preview";
                             azure_endpoint := ep |} in
              match AzureOpenAI args with
              | ConstructRaises r => inr r
              | Constructed =>
                  inl {| AZURE_OPENAI_API_KEY := k;
                         AZURE_OPENAI_ENDPOINT := ep;
                         client := args;
                         websocket_url := websocket_url_of ep;
                         headers := [("api-key", k)] |}
              end
        end
  end.

(* ================================================================== *)
(** ** Further observations *)

(** The event types that the [if]/[elif] chain has a branch for. *)
Definition known_kind (event_type : value) : bool :=
  eq_str event_type TRANSCRIPTION_DELTA
  || eq_str event_type TRANSCRIPTION_COMPLETED
  || eq_str event_type "response.text.delta"
  || eq_str event_type "response.text.done"
  || eq_str event_type "item"
  || eq_str event_type "error".

(** The field of an event that the branch for its kind displays. *)
Definition payload_field (kind : string) : option string :=
  if String.eqb kind TRANSCRIPTION_DELTA then Some "delta"
  else if String.eqb kind TRANSCRIPTION_COMPLETED then Some "transcript"
  else if String.eqb kind "response.text.delta" then Some "delta"
  else if String.eqb kind "response.text.done" then Some "text"
  else if String.eqb kind "item" then Some "item"
  else None.

(** An exception that [except Exception] does not catch. *)
Definition escapes (r : raised) : bool :=
  match r with
  | Exc _ => false
  | CancelledError | KeyboardInterrupt => true
  end.

(** Events of the wait after which, if nothing else has happened, the
    dispatcher is still in its loop and nothing has been raised into the
    wait: the pump takes a turn whose read and send do not end in
    [CancelledError] or [KeyboardInterrupt], the dispatcher receives a
    message, or the flag is cleared from outside. *)
Definition keeps_waiting (ev : event) : bool :=
  match ev with
  | PumpTurn io =>
      match io_read io, io_send io with
      | ReadRaises r, _ => negb (escapes r)
      | ReadOk _, SendRaises r => negb (escapes r)
      | ReadOk _, SendOk => true
      end
  | DispatcherTurn (Recv _) => true
  | DispatcherTurn _ => false
  | ExternalStop => true
  | CancelWait => false
  end.

(** Answers of the channel's iterator that end the dispatcher's loop
    with a normal return: the end of the stream, or an [Exception]. *)
Definition ends_dispatcher (i : inbound) : bool :=
  match i with
  | EndOfStream => true
  | RecvRaises (Exc _) => true
  | _ => false
  end.

(** What the receiving end does with an audio-append message: it takes
    the ["audio"] field and decodes its Base64 text. *)
Definition decode_audio (payload : value) : option frame :=
  match payload with
  | VDict d =>
      match dict_get d "audio" VNone with
      | VStr audio_base64 => base64.b64decode audio_base64
      | _ => None
      end
  | _ => None
  end.

(** The report of the dispatcher's outer [except] clause. *)
Definition receive_error (e : exception) : text :=
  printed [Chars "Error handling WebSocket messages: " :: str_exc e] nl.

(** The first and the last line [run] can print. *)
Definition connecting_line : text :=
  printed [[Chars "Connecting to Azure OpenAI Realtime API..."]] nl.
Definition connected_line : text :=
  printed [[Chars "Connected! Start speaking..."]] nl.
Definition interrupted_line : text :=
  printed [[Chars "Interrupted by user. Closing..."]] nl.

(* ================================================================== *)
(** * Properties *)

(** ** Writing to the console *)

Lemma write_nil (w : world) : write [] w = w.
Proof. destruct w; unfold write; simpl. now rewrite app_nil_r. Qed.

Lemma write_write (a b : text) (w : world) :
  write b (write a w) = write (a ++ b) w.
Proof. unfold write; simpl. now rewrite app_assoc. Qed.

Lemma py_print_write (args : list text) (end_ : string) (w : world) :
  py_print args end_ w = (Return tt, write (printed args end_) w).
Proof. reflexivity. Qed.

(** ** The dispatcher, one message at a time *)

(** Handling a decoded document: it returns having written some text
    that does not depend on the world, or it raises the [AttributeError]
    of calling [get] on something that is not a dict, having written
    nothing. *)
Lemma handle_event_cases (data : value) :
  (exists out, forall w, handle_event data w = (Return tt, write out w))
  \/ ((forall d, data <> VDict d)
      /\ forall w, handle_event data w
                   = (Raise (Exc (no_attribute (type_name data) "get")), w)).
Proof.
  destruct data as [| b | n | f | s | l | d];
    try (right; split; [intros d' H; discriminate H | reflexivity]).
  left. unfold handle_event, handle_kind, get, bind, ret, when_truthy.
  repeat match goal with
  | |- context [if ?c then _ else _] => destruct c
  end;
  eexists; intro w; rewrite ?py_print_write, ?write_write; try reflexivity;
  try (rewrite <- (write_nil (write _ w)) at 1; rewrite write_write; reflexivity).
Qed.

(** Handling a message always returns, and all it does is write a text
    determined by the message alone. *)
Lemma handle_message_write (m : message) (w : world) :
  handle_message m w = (Return tt, write (output_of m) w).
Proof.
  assert (H : exists out, forall w', handle_message m w' = (Return tt, write out w')).
  { destruct m as [data | e]; unfold handle_message, try_except, bind; simpl.
    - destruct (handle_event_cases data) as [[out H] | [_ H]].
      + exists out. intro w'. unfold ret. now rewrite H.
      + eexists. intro w'. unfold ret. rewrite H.
        unfold message_error; simpl. apply py_print_write.
    - unfold message_error. destruct (is_JSONDecodeError e).
      + exists []. intro w'. now rewrite write_nil.
      + eexists. intro w'. apply py_print_write. }
  destruct H as [out H].
  assert (Hout : output_of m = out).
  { unfold output_of, exec. now rewrite H. }
  rewrite Hout. apply H.
Qed.

(** The kind-specific handling of a dict returns, and all it does is
    write. *)
Lemma handle_kind_write (d : list (string * value)) (w : world) :
  handle_kind (VDict d) (event_type_of d) w = (Return tt, write (kind_output d) w).
Proof.
  unfold kind_output, exec.
  generalize (event_type_of d); intro ty.
  unfold handle_kind, get, when_truthy, bind, ret.
  repeat match goal with
  | |- context [if ?c then _ else _] => destruct c
  end;
  simpl; rewrite ?py_print_write, ?write_nil; reflexivity.
Qed.

(** The text written for a decoded event: the event-type line, then what
    the kind-specific handling writes. *)
Lemma output_of_event (d : list (string * value)) :
  output_of (Document (VDict d))
  = event_type_line (event_type_of d) ++ kind_output d.
Proof.
  unfold output_of, exec, handle_message, try_except, json_loads,
    handle_event, get, bind, ret.
  rewrite py_print_write. fold (event_type_of d).
  rewrite handle_kind_write. reflexivity.
Qed.

(** Something that is not JSON writes nothing. *)
Lemma output_of_malformed (msg : string) : output_of (malformed msg) = [].
Proof. reflexivity. Qed.


(** The loop over the inbound sequence, unfolded by one message. *)
Lemma dispatch_loop_recv (m : message) (rest : list inbound) (w : world) :
  dispatch_loop (Recv m :: rest) w = dispatch_loop rest (write (output_of m) w).
Proof.
  simpl. unfold bind. now rewrite handle_message_write.
Qed.

Lemma dispatch_loop_messages (ms : list message) (rest : list inbound) (w : world) :
  dispatch_loop (List.map Recv ms ++ rest) w
  = dispatch_loop rest (write (outputs_of ms) w).
Proof.
  revert w. induction ms as [| m ms IH]; intro w; simpl List.map; simpl app.
  - unfold outputs_of; simpl. now rewrite write_nil.
  - rewrite dispatch_loop_recv, IH, write_write. reflexivity.
Qed.

Lemma outputs_of_app (a b : list message) :
  outputs_of (a ++ b) = outputs_of a ++ outputs_of b.
Proof. unfold outputs_of. apply flat_map_app. Qed.

(** With a connection in place the dispatcher is the loop under its
    outer [except] clause. *)
Lemma handle_websocket_messages_connected (inbox : list inbound) (w : world) :
  present (websocket w) = true ->
  handle_websocket_messages inbox w
  = try_except (dispatch_loop inbox) websocket_error w.
Proof.
  intro H. unfold handle_websocket_messages, try_except, bind, aiter.
  destruct (websocket w); [reflexivity | discriminate H].
Qed.

Lemma handle_websocket_messages_recv (ms : list message) (rest : list inbound)
      (w : world) :
  present (websocket w) = true ->
  handle_websocket_messages (List.map Recv ms ++ rest) w
  = handle_websocket_messages rest (write (outputs_of ms) w).
Proof.
  intro H.
  unfold handle_websocket_messages, try_except, bind, aiter. simpl.
  destruct (websocket w); [| discriminate H].
  now rewrite dispatch_loop_messages.
Qed.

(** Delivering documents and closing the channel: the dispatcher returns
    having written what each document's handling writes, in order. *)
Lemma handle_websocket_messages_deliver (docs : list value) (w : world) :
  present (websocket w) = true ->
  handle_websocket_messages (deliver docs) w
  = (Return tt, write (outputs_of (List.map Document docs)) w).
Proof.
  intro H. unfold deliver. rewrite <- List.map_map.
  rewrite handle_websocket_messages_recv by exact H.
  rewrite handle_websocket_messages_connected by exact H.
  reflexivity.
Qed.

Lemma outputs_of_events (docs : list (list (string * value))) :
  outputs_of (List.map Document (List.map VDict docs))
  = List.flat_map (fun d => event_type_line (event_type_of d) ++ kind_output d)
      docs.
Proof.
  induction docs as [| d docs IH]; [reflexivity |].
  simpl. unfold outputs_of in *. simpl. rewrite IH, output_of_event.
  reflexivity.
Qed.

(** What the kind-specific handling writes for a delta and for a
    completed event. *)
Lemma kind_output_delta (d : list (string * value)) (piece : string) :
  is_delta d piece -> piece <> "" ->
  kind_output d = [Chars piece; Chars " "].
Proof.
  intros [Hk Hp] Hne. unfold kind_output, exec, handle_kind.
  rewrite Hk. simpl. unfold get, bind, ret. rewrite Hp.
  unfold when_truthy, truthy.
  destruct (String.eqb_spec piece ""); [contradiction | reflexivity].
Qed.

Lemma kind_output_completed (d : list (string * value)) (t : string) :
  is_completed d t ->
  kind_output d = if String.eqb t "" then [] else [Chars nl; Chars t; Chars nl].
Proof.
  intros [Hk Ht]. unfold kind_output, exec, handle_kind.
  rewrite Hk. simpl. unfold get, bind, ret. rewrite Ht.
  unfold when_truthy, truthy.
  destruct (String.eqb t ""); reflexivity.
Qed.

Lemma dispatch_loop_skip_malformed (msg : string) (pre post : list inbound)
      (w : world) :
  dispatch_loop (pre ++ Recv (malformed msg) :: post) w
  = dispatch_loop (pre ++ post) w.
Proof.
  revert w. induction pre as [| i pre IH]; intro w.
  - simpl app. rewrite dispatch_loop_recv, output_of_malformed, write_nil.
    reflexivity.
  - destruct i as [m | | r]; simpl app; try reflexivity.
    rewrite !dispatch_loop_recv. apply IH.
Qed.

Lemma dispatch_step_recv (m : message) (w : world) :
  turn (dispatch_step (Recv m)) w = (Return Running, write (output_of m) w).
Proof.
  unfold turn, dispatch_step, try_except, bind.
  rewrite handle_message_write. reflexivity.
Qed.

(** A message on which [json.loads] raises something other than
    [JSONDecodeError] is reported. *)
Lemma output_of_undecodable (e : exception) :
  is_JSONDecodeError e = false ->
  output_of (Undecodable e) = processing_error e.
Proof.
  intro H. unfold output_of, exec, handle_message, try_except, json_loads,
    bind, raise, message_error.
  rewrite H. reflexivity.
Qed.

Lemma handle_websocket_messages_cons (m : message) (rest : list inbound)
      (w : world) :
  present (websocket w) = true ->
  handle_websocket_messages (Recv m :: rest) w
  = handle_websocket_messages rest (write (output_of m) w).
Proof.
  intro H. change (Recv m :: rest) with (List.map Recv [m] ++ rest).
  rewrite handle_websocket_messages_recv by exact H.
  unfold outputs_of; simpl. now rewrite app_nil_r.
Qed.

Lemma handle_websocket_messages_events (docs : list (list (string * value)))
      (w : world) :
  present (websocket w) = true ->
  handle_websocket_messages (deliver (List.map VDict docs)) w
  = (Return tt,
     write
       (List.flat_map
          (fun d => event_type_line (event_type_of d) ++ kind_output d) docs)
       w).
Proof.
  intro H. rewrite handle_websocket_messages_deliver by exact H.
  now rewrite outputs_of_events.
Qed.

(** C3, as amended. A message on which [json.loads] raises
    [JSONDecodeError] (text that is not JSON) is dropped without a trace:
    handling it returns and leaves the world (console included) as it
    was, the dispatcher task stays in its loop, and the dispatcher treats
    any inbound sequence containing such a message exactly as it treats
    the sequence without it; the events that follow it are decoded and
    dispatched, each writing its event-type line and what its kind's
    handling writes. A message on which [json.loads] raises any other
    exception (bytes that are not UTF-8, nesting beyond the recursion
    limit) is not dropped silently: the line "Error processing message:
    ..." is written for it; the loop goes on in the same way. *)
Theorem json_decode_error_discarded :
  forall (msg : string) (e : exception) (pre post : list inbound)
         (docs : list (list (string * value))) (w : world),
    handle_message (malformed msg) w = (Return tt, w)
    /\ turn (dispatch_step (Recv (malformed msg))) w = (Return Running, w)
    /\ handle_websocket_messages (pre ++ Recv (malformed msg) :: post) w
       = handle_websocket_messages (pre ++ post) w
    /\ (present (websocket w) = true ->
        handle_websocket_messages
          (Recv (malformed msg) :: deliver (List.map VDict docs)) w
        = (Return tt,
           write
             (List.flat_map
                (fun d => event_type_line (event_type_of d) ++ kind_output d)
                docs) w))
    /\ (is_JSONDecodeError e = false ->
        handle_message (Undecodable e) w
          = (Return tt, write (processing_error e) w)
        /\ turn (dispatch_step (Recv (Undecodable e))) w
           = (Return Running, write (processing_error e) w)
        /\ (present (websocket w) = true ->
            handle_websocket_messages
              (Recv (Undecodable e) :: deliver (List.map VDict docs)) w
            = (Return tt,
               write
                 (processing_error e
                  ++ List.flat_map
                       (fun d => event_type_line (event_type_of d)
                                 ++ kind_output d) docs) w))).
Proof.
  intros msg e pre post docs w. split; [| split; [| split; [| split]]].
  - rewrite handle_message_write, output_of_malformed. now rewrite write_nil.
  - rewrite dispatch_step_recv, output_of_malformed. now rewrite write_nil.
  - unfold handle_websocket_messages, try_except, bind, aiter.
    destruct (websocket w); [| reflexivity].
    now rewrite dispatch_loop_skip_malformed.
  - intro Hws. rewrite handle_websocket_messages_cons by exact Hws.
    rewrite output_of_malformed, write_nil.
    now apply handle_websocket_messages_events.
  - intro He. split; [| split].
    + rewrite handle_message_write. now rewrite output_of_undecodable.
    + rewrite dispatch_step_recv. now rewrite output_of_undecodable.
    + intro Hws. rewrite handle_websocket_messages_cons by exact Hws.
      rewrite output_of_undecodable by exact He.
      rewrite handle_websocket_messages_events by exact Hws.
      now rewrite write_write.
Qed.

(** C3, at an input: ["{bad"] is not JSON and leaves no trace, and the
    item event carrying ["x"] that follows it is displayed; bytes that
    are not UTF-8 are reported, and the item event that follows them is
    displayed as well. *)
Lemma json_decode_error_discarded_witness :
  let bad :=
    "Expecting property name enclosed in double quotes: line 1 column 2 (char 1)"
  in
  let bytes :=
    Exception (OtherException "UnicodeDecodeError")
      "'utf-8' codec can't decode byte 0xff in position 0: invalid start byte"
  in
  handle_websocket_messages
    (Recv (malformed bad)
     :: deliver [VDict [("type", VStr "item"); ("item", VStr "x")]])
    connected
  = (Return tt,
     write
       [Chars "Event type:"; Chars " "; Chars "item"; Chars nl;
        Chars (nl ++ "Final transcript:")%string; Chars " "; Chars "x";
        Chars nl]
       connected)
  /\ handle_websocket_messages
       (Recv (Undecodable bytes)
        :: deliver [VDict [("type", VStr "item"); ("item", VStr "x")]])
       connected
     = (Return tt,
        write
          [Chars "Error processing message: ";
           Chars "'utf-8' codec can't decode byte 0xff in position 0: invalid start byte";
           Chars nl;
           Chars "Event type:"; Chars " "; Chars "item"; Chars nl;
           Chars (nl ++ "Final transcript:")%string; Chars " "; Chars "x";
           Chars nl]
          connected).
Proof.
  intros bad bytes.
  destruct (@json_decode_error_discarded bad bytes [] []
              [[("type", VStr "item"); ("item", VStr "x")]] connected)
    as (_ & _ & _ & Hsilent & Hother).
  split.
  - apply Hsilent. reflexivity.
  - destruct (Hother eq_refl) as (_ & _ & Hrun). apply Hrun. reflexivity.
Defined.

(** C3, as stated, fails for a message that cannot be decoded for
    another reason than its JSON syntax: on the bytes [ff 7b]
    [json.loads] raises [UnicodeDecodeError], which the clause for
    [JSONDecodeError] does not match, and the message is not discarded
    silently: a line is written to the console for it. *)
Lemma undecodable_bytes_reported :
  let e :=
    Exception (OtherException "UnicodeDecodeError")
      "'utf-8' codec can't decode byte 0xff in position 0: invalid start byte"
  in
  json_loads (Undecodable e) connected = (Raise (Exc e), connected)
  /\ is_JSONDecodeError e = false
  /\ console (exec (handle_message (Undecodable e)) connected)
     = [Chars "Error processing message: ";
        Chars "'utf-8' codec can't decode byte 0xff in position 0: invalid start byte";
        Chars nl]
  /\ (handle_message (Undecodable e) connected = (Return tt, connected)
      -> False).
Proof.
  intro e. split; [reflexivity |]. split; [reflexivity |].
  split; [reflexivity |].
  intro H. apply (f_equal (fun p => console (snd p))) in H.
  discriminate H.
Qed.

(** The feed of the specification's test: ["{bad"], then an item event
    carrying ["x"]; the item is reported. *)
Example malformed_then_item :
  console (exec (handle_websocket_messages
                   [Recv (malformed "{bad");
                    Recv (Document (VDict [("type", VStr "item");
                                           ("item", VStr "x")]));
                    EndOfStream]) connected)
  = [Chars "Event type:"; Chars " "; Chars "item"; Chars nl;
     Chars (nl ++ "Final transcript:")%string; Chars " "; Chars "x"; Chars nl].
Proof. reflexivity. Qed.





(** A decoded document that is not an object (here a JSON array) has no
    [get]: the [AttributeError] is reported and the item event that
    follows is handled. *)
Example array_document_reported :
  handle_websocket_messages
    (Recv (Document (VList [VInt 1]))
     :: deliver [VDict [("type", VStr "item"); ("item", VStr "x")]])
    connected
  = (Return tt,
     write
       [Chars "Error processing message: ";
        Chars "'list' object has no attribute 'get'"; Chars nl;
        Chars "Event type:"; Chars " "; Chars "item"; Chars nl;
        Chars (nl ++ "Final transcript:")%string; Chars " "; Chars "x";
        Chars nl]
       connected).
Proof. reflexivity. Qed.

Lemma outputs_of_deltas (deltas : list (list (string * value))) :
  Forall (is_kind TRANSCRIPTION_DELTA) deltas ->
  outputs_of (List.map Document (List.map VDict deltas))
  = List.flat_map
      (fun d => event_type_line (VStr TRANSCRIPTION_DELTA) ++ kind_output d)
      deltas.
Proof.
  intro H. rewrite outputs_of_events.
  induction H as [| d deltas Hd _ IH]; [reflexivity |].
  cbn [List.flat_map]. rewrite IH. unfold is_kind in Hd. now rewrite Hd.
Qed.

(** C9, as amended. After any number of transcription-delta events, a
    transcription-completed event whose transcript is a non-empty string
    makes the dispatcher write its event-type line and then a newline,
    the transcript and a terminating newline; that text follows whatever
    the delta events wrote and is the same whatever they were, and it is
    the last thing on the console when the channel closes. When the
    transcript is the empty string, nothing is written for it after the
    event-type line. *)
Theorem completed_transcript_displayed :
  forall (deltas : list (list (string * value))) (c : list (string * value))
         (t : string) (w : world),
    present (websocket w) = true ->
    Forall (is_kind TRANSCRIPTION_DELTA) deltas ->
    is_completed c t ->
    handle_websocket_messages (deliver (List.map VDict (deltas ++ [c]))) w
      = (Return tt,
         write
           (List.flat_map
              (fun d => event_type_line (VStr TRANSCRIPTION_DELTA)
                        ++ kind_output d) deltas
            ++ event_type_line (VStr TRANSCRIPTION_COMPLETED)
            ++ (if String.eqb t "" then []
                else [Chars nl; Chars t; Chars nl])) w)
    /\ (t <> "" ->
        ends_with_line t
          (console
             (exec (handle_websocket_messages
                      (deliver (List.map VDict (deltas ++ [c])))) w))).
Proof.
  intros deltas c t w Hws Hdeltas Hc.
  assert (Hrun :
    handle_websocket_messages (deliver (List.map VDict (deltas ++ [c]))) w
    = (Return tt,
       write
         (List.flat_map
            (fun d => event_type_line (VStr TRANSCRIPTION_DELTA)
                      ++ kind_output d) deltas
          ++ event_type_line (VStr TRANSCRIPTION_COMPLETED)
          ++ (if String.eqb t "" then []
              else [Chars nl; Chars t; Chars nl])) w)).
  { rewrite handle_websocket_messages_deliver by exact Hws.
    rewrite !List.map_app, outputs_of_app, outputs_of_deltas by exact Hdeltas.
    unfold outputs_of; simpl. rewrite app_nil_r, output_of_event.
    rewrite (kind_output_completed Hc).
    destruct Hc as [Hk _]. unfold is_kind in Hk. rewrite Hk. reflexivity. }
  split; [exact Hrun |].
  intro Hne. unfold exec. rewrite Hrun. simpl.
  destruct (String.eqb_spec t ""); [contradiction |].
  exists (console w
          ++ List.flat_map
               (fun d => event_type_line (VStr TRANSCRIPTION_DELTA)
                         ++ kind_output d) deltas
          ++ event_type_line (VStr TRANSCRIPTION_COMPLETED) ++ [Chars nl]).
  rewrite <- !app_assoc. reflexivity.
Qed.

(** C9, at an input: the deltas "Hel" and "lo ", then the completed
    transcript "Hello world". *)
Lemma completed_transcript_displayed_witness :
  handle_websocket_messages
    (deliver
       [VDict [("type", VStr TRANSCRIPTION_DELTA); ("delta", VStr "Hel")];
        VDict [("type", VStr TRANSCRIPTION_DELTA); ("delta", VStr "lo ")];
        VDict [("type", VStr TRANSCRIPTION_COMPLETED);
               ("transcript", VStr "Hello world")]])
    connected
  = (Return tt,
     write
       [Chars "Event type:"; Chars " "; Chars TRANSCRIPTION_DELTA; Chars nl;
        Chars "Hel"; Chars " ";
        Chars "Event type:"; Chars " "; Chars TRANSCRIPTION_DELTA; Chars nl;
        Chars "lo "; Chars " ";
        Chars "Event type:"; Chars " "; Chars TRANSCRIPTION_COMPLETED; Chars nl;
        Chars nl; Chars "Hello world"; Chars nl]
       connected)
  /\ ends_with_line "Hello world"
       (console
          (exec (handle_websocket_messages
                   (deliver
                      [VDict [("type", VStr TRANSCRIPTION_DELTA);
                              ("delta", VStr "Hel")];
                       VDict [("type", VStr TRANSCRIPTION_DELTA);
                              ("delta", VStr "lo ")];
                       VDict [("type", VStr TRANSCRIPTION_COMPLETED);
                              ("transcript", VStr "Hello world")]]))
             connected)).
Proof.
  destruct (@completed_transcript_displayed
       [[("type", VStr TRANSCRIPTION_DELTA); ("delta", VStr "Hel")];
        [("type", VStr TRANSCRIPTION_DELTA); ("delta", VStr "lo ")]]
       [("type", VStr TRANSCRIPTION_COMPLETED);
        ("transcript", VStr "Hello world")]
       "Hello world" connected) as [Hrun Hline].
  - reflexivity.
  - repeat constructor.
  - split; reflexivity.
  - split; [exact Hrun | apply Hline; discriminate].
Defined.

(** C9, as stated, fails when the transcript is empty: the guard
    [if transcript:] skips the display, nothing (not even a newline) is
    written for the transcript, and the console ends with the event-type
    line, not with a transcript line. *)
Lemma empty_transcript_not_displayed :
  let c := [("type", VStr TRANSCRIPTION_COMPLETED); ("transcript", VStr "")] in
  is_completed c ""
  /\ kind_output c = []
  /\ console
       (exec (handle_websocket_messages (deliver [VDict c])) connected)
     = [Chars "Event type:"; Chars " "; Chars TRANSCRIPTION_COMPLETED; Chars nl]
  /\ ~ ends_with_line ""
       (console
          (exec (handle_websocket_messages (deliver [VDict c])) connected)).
Proof.
  intro c. split; [split; reflexivity |].
  split; [reflexivity |]. split; [reflexivity |].
  intros [before H].
  change (console _) with
    [Chars "Event type:"; Chars " "; Chars TRANSCRIPTION_COMPLETED; Chars nl]
    in H.
  destruct before as [| a [| b [| x rest]]]; try discriminate H.
  injection H as _ _ _ H. destruct rest as [| y [| z rest]]; discriminate H.
Qed.

(** C10. For every inbound sequence of decoded events (dicts), of known
    or unknown kind, the dispatcher writes for each event first the line
    "Event type: <type>" ending in a newline, and only then what the
    kind-specific handling writes. In particular the line stands between
    the fragments of two consecutive transcription-delta events. *)
Theorem event_type_line_precedes_handling :
  forall (docs : list (list (string * value)))
         (d1 d2 : list (string * value)) (p1 p2 : string) (w : world),
    present (websocket w) = true ->
    is_delta d1 p1 -> p1 <> "" ->
    is_delta d2 p2 -> p2 <> "" ->
    handle_websocket_messages (deliver (List.map VDict docs)) w
      = (Return tt,
         write
           (List.flat_map
              (fun d => event_type_line (event_type_of d) ++ kind_output d)
              docs) w)
    /\ (forall d ty, event_type_of d = VStr ty ->
          event_type_line (event_type_of d)
          = [Chars "Event type:"; Chars " "; Chars ty; Chars nl])
    /\ handle_websocket_messages (deliver [VDict d1; VDict d2]) w
       = (Return tt,
          write
            [Chars "Event type:"; Chars " "; Chars TRANSCRIPTION_DELTA; Chars nl;
             Chars p1; Chars " ";
             Chars "Event type:"; Chars " "; Chars TRANSCRIPTION_DELTA; Chars nl;
             Chars p2; Chars " "] w).
Proof.
  intros docs d1 d2 p1 p2 w Hws H1 Hne1 H2 Hne2.
  assert (Hall : forall ds,
    handle_websocket_messages (deliver (List.map VDict ds)) w
    = (Return tt,
       write
         (List.flat_map
            (fun d => event_type_line (event_type_of d) ++ kind_output d)
            ds) w)).
  { intro ds. rewrite handle_websocket_messages_deliver by exact Hws.
    now rewrite outputs_of_events. }
  split; [apply Hall | split].
  - intros d ty Hty. now rewrite Hty.
  - change [VDict d1; VDict d2] with (List.map VDict [d1; d2]).
    rewrite Hall. cbn [List.flat_map].
    rewrite (kind_output_delta H1 Hne1), (kind_output_delta H2 Hne2).
    destruct H1 as [K1 _], H2 as [K2 _]. unfold is_kind in K1, K2.
    rewrite K1, K2. reflexivity.
Qed.

(** C10, at an input: an event of an unknown kind between two
    transcription deltas. *)
Lemma event_type_line_precedes_handling_witness :
  handle_websocket_messages
    (deliver
       [VDict [("type", VStr TRANSCRIPTION_DELTA); ("delta", VStr "Hel")];
        VDict [("type", VStr "session.created")];
        VDict [("type", VStr TRANSCRIPTION_DELTA); ("delta", VStr "lo")]])
    connected
  = (Return tt,
     write
       [Chars "Event type:"; Chars " "; Chars TRANSCRIPTION_DELTA; Chars nl;
        Chars "Hel"; Chars " ";
        Chars "Event type:"; Chars " "; Chars "session.created"; Chars nl;
        Chars "Event type:"; Chars " "; Chars TRANSCRIPTION_DELTA; Chars nl;
        Chars "lo"; Chars " "]
       connected).
Proof.
  refine (proj1
    (@event_type_line_precedes_handling
       [[("type", VStr TRANSCRIPTION_DELTA); ("delta", VStr "Hel")];
        [("type", VStr "session.created")];
        [("type", VStr TRANSCRIPTION_DELTA); ("delta", VStr "lo")]]
       [("type", VStr TRANSCRIPTION_DELTA); ("delta", VStr "Hel")]
       [("type", VStr TRANSCRIPTION_DELTA); ("delta", VStr "lo")]
       "Hel" "lo" connected _ _ _ _ _)).
  - reflexivity.
  - split; reflexivity.
  - discriminate.
  - split; reflexivity.
  - discriminate.
Defined.

(** ** The pump, one pass at a time *)

Lemma record_ops_nil (w : world) : record_ops [] [] w = w.
Proof. destruct w; unfold record_ops; simpl. now rewrite !app_nil_r. Qed.

Lemma record_ops_record_ops (d1 d2 : list device_op) (c1 c2 : list channel_op)
      (w : world) :
  record_ops d2 c2 (record_ops d1 c1 w) = record_ops (d1 ++ d2) (c1 ++ c2) w.
Proof. unfold record_ops; simpl. now rewrite !app_assoc. Qed.

(** The pump's handler returns, having reported and cleared the flag. *)
Lemma audio_streaming_error_spec (e : exception) (w : world) :
  audio_streaming_error e w = (Return tt, stopped (write (streaming_error e) w)).
Proof. reflexivity. Qed.

(** With the flag cleared (or no connection) a pass does not begin. *)
Lemma pump_step_not_streaming (io : pump_io) (w : world) :
  pump_test w = false -> pump_step io w = (Return false, w).
Proof.
  intro H. unfold pump_step, try_except. now rewrite H.
Qed.

(** A pass in which the read and the send succeed. *)
Lemma pump_step_ok (audio_data : frame) (w : world) :
  pump_test w = true -> present (stream w) = true ->
  pump_step (ok_io audio_data) w
  = (Return true,
     record_ops [DevRead (ReadOk audio_data)] [ChSend (audio_append audio_data)] w).
Proof.
  destruct w as [ai st fl ws co ch dv].
  unfold pump_test; simpl. intros Ht Hs.
  apply andb_prop in Ht as [-> Hws].
  destruct st; [| discriminate Hs]. destruct ws; [| discriminate Hws].
  reflexivity.
Qed.

(** A pass in which the read or the send fails with an exception: the
    pass is the last one. *)
Lemma pump_step_fails (io : pump_io) (e : exception) (w : world) :
  pump_test w = true -> present (stream w) = true ->
  fails_with io e ->
  pump_step io w
  = (Return false,
     stopped (write (streaming_error e)
                (record_ops (pass_reads io) (pass_sends io) w))).
Proof.
  destruct w as [ai st fl ws co ch dv], io as [r sr].
  unfold pump_test, fails_with; simpl. intros Ht Hs Hf.
  apply andb_prop in Ht as [-> Hws].
  destruct st; [| discriminate Hs]. destruct ws; [| discriminate Hws].
  destruct Hf as [-> | [[audio_data ->] ->]].
  - unfold pump_step, try_except, pump_test, pass_sends, stopped, write,
      record_ops, exec; simpl. now rewrite app_nil_r.
  - reflexivity.
Qed.

(** The loop of [stream_microphone] is the iteration of its passes. *)
Lemma stream_microphone_nil (w : world) :
  stream_microphone [] w
  = if pump_test w then (Suspended, w) else (Return tt, w).
Proof.
  unfold stream_microphone, try_except; simpl. now destruct (pump_test w).
Qed.

Lemma stream_microphone_cons (io : pump_io) (ios : list pump_io) (w : world) :
  stream_microphone (io :: ios) w
  = match pump_step io w with
    | (Return true, w') => stream_microphone ios w'
    | (Return false, w') => (Return tt, w')
    | (Raise r, w') => (Raise r, w')
    | (Suspended, w') => (Suspended, w')
    end.
Proof.
  unfold stream_microphone, pump_step, try_except; simpl.
  destruct (pump_test w); [| reflexivity].
  unfold bind, ret.
  destruct (pump_body io w) as [[[] | [e | |] |] w']; reflexivity.
Qed.

(** Passes that succeed only record their read and their send. *)
Lemma stream_microphone_ok_passes (frames : list frame) (rest : list pump_io)
      (w : world) :
  pump_test w = true -> present (stream w) = true ->
  stream_microphone (List.map ok_io frames ++ rest) w
  = stream_microphone rest
      (record_ops (List.map (fun f => DevRead (ReadOk f)) frames)
                  (List.map (fun f => ChSend (audio_append f)) frames) w).
Proof.
  revert w. induction frames as [| f frames IH]; intros w Ht Hs.
  - simpl. now rewrite record_ops_nil.
  - simpl List.map. simpl app. rewrite stream_microphone_cons.
    rewrite pump_step_ok by assumption.
    rewrite IH by assumption.
    rewrite record_ops_record_ops. reflexivity.
Qed.

(** C7. When a read of the audio source or a send on the channel fails
    with an exception in some pass of the pump's loop, after any number
    of passes that went well, [stream_microphone] returns normally (the
    exception does not reach its caller), the flag is false, the failure
    has been reported, and the failed call is the last one made: every
    earlier frame was read and sent once, the failing pass made its read
    (and its send, if the read went well), and nothing of what the
    environment held ready for later passes was used. *)
Theorem pump_failure_stops_streaming :
  forall (frames : list frame) (io : pump_io) (post : list pump_io)
         (e : exception) (w : world),
    pump_test w = true ->
    present (stream w) = true ->
    fails_with io e ->
    let w' :=
      stopped
        (write (streaming_error e)
           (record_ops
              (List.map (fun f => DevRead (ReadOk f)) frames ++ pass_reads io)
              (List.map (fun f => ChSend (audio_append f)) frames
               ++ pass_sends io) w)) in
    stream_microphone (List.map ok_io frames ++ io :: post) w = (Return tt, w')
    /\ is_streaming w' = false
    /\ turn (pump_step io) w
       = (Return Returned,
          stopped (write (streaming_error e)
                     (record_ops (pass_reads io) (pass_sends io) w))).
Proof.
  intros frames io post e w Ht Hs Hf w'. split; [| split].
  - rewrite stream_microphone_ok_passes by assumption.
    rewrite stream_microphone_cons.
    rewrite (@pump_step_fails io e) by assumption.
    now rewrite record_ops_record_ops.
  - reflexivity.
  - unfold turn. now rewrite (@pump_step_fails io e) by assumption.
Qed.

(** C7, at an input: one frame goes out, then the device fails. *)
Lemma pump_failure_stops_streaming_witness :
  stream_microphone
    [ok_io [x00; x01]%byte;
     PumpIO (ReadRaises (Exc (Exception OSError "Stream closed"))) SendOk;
     ok_io [x02; x03]%byte]
    ready
  = (Return tt,
     stopped
       (write (streaming_error (Exception OSError "Stream closed"))
          (record_ops
             [DevRead (ReadOk [x00; x01]%byte);
              DevRead (ReadRaises (Exc (Exception OSError "Stream closed")))]
             [ChSend (audio_append [x00; x01]%byte)]
             ready))).
Proof.
  refine (proj1
    (@pump_failure_stops_streaming
       [[x00; x01]%byte]
       (PumpIO (ReadRaises (Exc (Exception OSError "Stream closed"))) SendOk)
       [ok_io [x02; x03]%byte]
       (Exception OSError "Stream closed") ready _ _ _)).
  - reflexivity.
  - reflexivity.
  - left. reflexivity.
Defined.

(** ** Tasks under a schedule *)

(** A turn of the dispatcher only writes to the console. *)
Lemma dispatch_turn_writes (i : inbound) (w : world) :
  exists t out, turn (dispatch_step i) w = (Return t, write out w).
Proof.
  destruct i as [m | | [e | |]].
  - exists Running, (output_of m). apply dispatch_step_recv.
  - exists Returned, []. now rewrite write_nil.
  - exists Returned,
      (printed [Chars "Error handling WebSocket messages: " :: str_exc e] nl).
    reflexivity.
  - exists (Failed CancelledError), []. now rewrite write_nil.
  - exists (Failed KeyboardInterrupt), []. now rewrite write_nil.
Qed.

(** A turn of a task returns to the scheduler, whatever the step did. *)
Lemma turn_returns (step : M bool) (w : world) :
  exists t, result (turn step) w = Return t.
Proof.
  unfold result, turn.
  destruct (step w) as [[[|] | r |] w']; eexists; reflexivity.
Qed.

(** Once the flag is false, nothing that happens during the wait reads
    a frame or sends a message, and the flag stays false. *)
Lemma await_gather_stopped (sched : list event) :
  forall (a m : task) (w : world),
    is_streaming w = false ->
    is_streaming (exec (await_gather sched a m) w) = false
    /\ channel (exec (await_gather sched a m) w) = channel w
    /\ device (exec (await_gather sched a m) w) = device w.
Proof.
  induction sched as [| ev sched IH]; intros a m w Hf.
  - simpl. destruct (gather a m); auto.
  - simpl. destruct (gather a m); auto.
    destruct ev as [io | i | |].
    + destruct a; try (apply IH; exact Hf).
      unfold exec, bind, turn.
      rewrite pump_step_not_streaming
        by (unfold pump_test; now rewrite Hf).
      apply IH. exact Hf.
    + destruct m; try (apply IH; exact Hf).
      unfold exec, bind.
      destruct (dispatch_turn_writes i w) as (t & out & ->).
      destruct (IH a t (write out w) Hf) as (H1 & H2 & H3).
      auto.
    + unfold exec, bind; simpl.
      apply (IH a m (stopped w)). reflexivity.
    + auto.
Qed.

(** C8. Once the flag has been set to false from outside, the pump does
    not begin another pass: a pass attempted in that state returns at the
    loop test without reading or sending, [stream_microphone] entered in
    that state returns at once, and during the controller's wait no call
    is made on the channel or on the audio device after the flag was
    cleared, whatever the schedule that follows and whatever state the
    two tasks were in. *)
Theorem pump_stops_when_flag_cleared :
  forall (io : pump_io) (ios : list pump_io) (sched : list event)
         (a m : task) (w : world),
    pump_step io (stopped w) = (Return false, stopped w)
    /\ stream_microphone ios (stopped w) = (Return tt, stopped w)
    /\ channel (exec (await_gather (ExternalStop :: sched) a m) w) = channel w
    /\ device (exec (await_gather (ExternalStop :: sched) a m) w) = device w.
Proof.
  intros io ios sched a m w.
  assert (Hstep : forall io', pump_step io' (stopped w) = (Return false, stopped w)).
  { intro io'. now apply pump_step_not_streaming. }
  split; [apply Hstep | split].
  - destruct ios as [| io' ios].
    + now rewrite stream_microphone_nil.
    + now rewrite stream_microphone_cons, Hstep.
  - simpl. destruct (gather a m); auto.
    unfold exec, bind; simpl.
    destruct (@await_gather_stopped sched a m (stopped w) eq_refl)
      as (_ & H2 & H3).
    split; assumption.
Qed.

Lemma frames_read_app (a b : list device_op) :
  frames_read (a ++ b) = frames_read a ++ frames_read b.
Proof.
  induction a as [| op a IH]; [reflexivity |].
  destruct op as [? ? ? ? | [f | r] | | |]; simpl; now rewrite IH.
Qed.

Lemma sent_app (a b : list channel_op) : sent (a ++ b) = sent a ++ sent b.
Proof.
  induction a as [| op a IH]; [reflexivity |].
  destruct op; simpl; now rewrite IH.
Qed.

Lemma sent_audio (frames : list frame) :
  sent (List.map (fun f => ChSend (audio_append f)) frames)
  = List.map audio_append frames.
Proof.
  induction frames as [| f frames IH]; [reflexivity |].
  simpl. now rewrite IH.
Qed.

Lemma during_wait_refl (w : world) : during_wait w w.
Proof.
  repeat split. exists []. simpl. now rewrite !app_nil_r.
Qed.

Lemma during_wait_trans (w1 w2 w3 : world) :
  during_wait w1 w2 -> during_wait w2 w3 -> during_wait w1 w3.
Proof.
  intros (A1 & S1 & W1 & r1 & F1 & D1 & C1) (A2 & S2 & W2 & r2 & F2 & D2 & C2).
  repeat split; try congruence.
  exists (r1 ++ r2). split; [| split].
  - rewrite forallb_app, F1, F2. reflexivity.
  - rewrite D2, D1. now rewrite app_assoc.
  - rewrite C2, C1, frames_read_app, List.map_app. now rewrite app_assoc.
Qed.

Lemma during_wait_write (out : text) (w : world) : during_wait w (write out w).
Proof.
  repeat split. exists []. simpl. now rewrite !app_nil_r.
Qed.

Lemma during_wait_stopped (w : world) : during_wait w (stopped w).
Proof.
  repeat split. exists []. simpl. now rewrite !app_nil_r.
Qed.

(** A turn of the pump reads at most one frame and, if it read one, hands
    its audio-append message to the channel. *)
Lemma pump_turn_during_wait (io : pump_io) (w : world) :
  during_wait w (exec (turn (pump_step io)) w).
Proof.
  destruct w as [ai st fl ws co ch dv], io as [r sr].
  unfold exec, turn, pump_step, try_except, pump_test; simpl.
  destruct fl; simpl; [| apply during_wait_refl].
  destruct ws as [h |]; simpl; [| apply during_wait_refl].
  unfold pump_body, bind, stream_read; simpl.
  destruct st as [s |]; simpl.
  - destruct r as [f | [e | |]]; simpl.
    + destruct sr as [| [e | |]]; simpl;
        (repeat split; exists [DevRead (ReadOk f)]; auto).
    + repeat split. exists [DevRead (ReadRaises (Exc e))]. simpl.
      now rewrite app_nil_r.
    + repeat split. exists [DevRead (ReadRaises CancelledError)]. simpl.
      now rewrite app_nil_r.
    + repeat split. exists [DevRead (ReadRaises KeyboardInterrupt)]. simpl.
      now rewrite app_nil_r.
  - repeat split. exists []. simpl. now rewrite !app_nil_r.
Qed.

Lemma dispatch_turn_during_wait (i : inbound) (w : world) :
  during_wait w (exec (turn (dispatch_step i)) w).
Proof.
  unfold exec. destruct (dispatch_turn_writes i w) as (t & out & ->).
  apply during_wait_write.
Qed.

(** The whole wait, whatever the schedule. *)
Lemma await_gather_during_wait (sched : list event) :
  forall (a m : task) (w : world),
    during_wait w (exec (await_gather sched a m) w).
Proof.
  induction sched as [| ev sched IH]; intros a m w.
  - simpl. destruct (gather a m); apply during_wait_refl.
  - simpl. destruct (gather a m); try apply during_wait_refl.
    destruct ev as [io | i | |].
    + destruct a; try apply IH.
      pose proof (pump_turn_during_wait io w) as Hp.
      destruct (turn_returns (pump_step io) w) as [t Ht].
      unfold exec, result, bind in *.
      destruct (turn (pump_step io) w) as [o w1]. simpl in Ht, Hp. subst o.
      eapply during_wait_trans; [exact Hp | apply IH].
    + destruct m; try apply IH.
      pose proof (dispatch_turn_during_wait i w) as Hp.
      destruct (turn_returns (dispatch_step i) w) as [t Ht].
      unfold exec, result, bind in *.
      destruct (turn (dispatch_step i) w) as [o w1]. simpl in Ht, Hp. subst o.
      eapply during_wait_trans; [exact Hp | apply IH].
    + unfold exec, bind; simpl.
      eapply during_wait_trans; [apply (during_wait_stopped w) | apply IH].
    + apply during_wait_refl.
Qed.

(** ** The session controller *)

Lemma cleanup_spec (w : world) :
  cleanup w = (Return tt, record_ops (release_ops w) [] (stopped w)).
Proof.
  destruct w as [ai st fl ws co ch dv].
  unfold cleanup, bind, release_ops, record_ops, stopped, exec; simpl.
  destruct st, ai; unfold device_call; simpl;
    rewrite ?app_nil_r, <- ?app_assoc; reflexivity.
Qed.

Lemma released_spec (w : world) :
  released w = record_ops (release_ops w) [] (stopped w).
Proof. unfold released, exec. now rewrite cleanup_spec. Qed.

(** [connect_and_run] once the connection is open and the configuration
    has been sent: the wait, then the teardown, unless the wait never
    completes. *)
Lemma connect_and_run_wait (env : environment) (w : world) :
  env_connect env = OpenOk ->
  env_config env = SendOk ->
  connect_and_run env w
  = match await_gather (env_schedule env) Running Running (at_wait w) with
    | (Suspended, w2) => (Suspended, w2)
    | (Return _, w2) => (Return tt, released (closed w2))
    | (Raise CancelledError, w2) => (Return tt, released (closed w2))
    | (Raise (Exc e), w2) =>
        (Return tt, released (write (connection_error e) (closed w2)))
    | (Raise KeyboardInterrupt, w2) =>
        (Raise KeyboardInterrupt, released (closed w2))
    end.
Proof.
  intros Hc Hs. destruct w as [ai st fl ws co ch dv].
  unfold connect_and_run, async_with_connect, send_session_config, at_wait,
    exec.
  rewrite Hc, Hs.
  unfold try_finally, try_except, try_except_cancelled, bind, websocket_send.
  simpl.
  destruct (await_gather (env_schedule env) Running Running _)
    as [[[] | [e | |] |] w2]; simpl; unfold released, closed, exec;
    rewrite ?cleanup_spec; reflexivity.
Qed.

(** [connect_and_run] when the connection cannot be opened. *)
Lemma connect_and_run_refused (env : environment) (r : raised) (w : world) :
  env_connect env = OpenRaises r ->
  connect_and_run env w
  = match r with
    | Exc e =>
        (Return tt,
         released
           (write (connection_error e)
              (write (printed [[Chars "Connecting to Azure OpenAI Realtime API..."]] nl) w)))
    | _ =>
        (Raise r,
         released
           (write (printed [[Chars "Connecting to Azure OpenAI Realtime API..."]] nl) w))
    end.
Proof.
  intro Hc. destruct w as [ai st fl ws co ch dv].
  unfold connect_and_run, async_with_connect. rewrite Hc.
  unfold try_finally, try_except, bind, raise. simpl.
  destruct r as [e | |]; simpl; unfold released, exec;
    rewrite ?cleanup_spec; reflexivity.
Qed.

(** [connect_and_run] when sending the configuration fails. *)
Lemma connect_and_run_config_fails (env : environment) (r : raised) (w : world) :
  env_connect env = OpenOk ->
  env_config env = SendRaises r ->
  connect_and_run env w
  = match r with
    | Exc e =>
        (Return tt, released (write (connection_error e) (closed (at_wait w))))
    | _ => (Raise r, released (closed (at_wait w)))
    end.
Proof.
  intros Hc Hs. destruct w as [ai st fl ws co ch dv].
  unfold connect_and_run, async_with_connect, send_session_config, at_wait,
    exec.
  rewrite Hc, Hs.
  unfold try_finally, try_except, try_except_cancelled, bind, websocket_send,
    raise.
  simpl.
  destruct r as [e | |]; simpl; unfold released, closed, exec;
    rewrite ?cleanup_spec; reflexivity.
Qed.

(** [run] once the audio stream has been opened: [connect_and_run], then
    (unless that never completes) a second [cleanup]. *)
Lemma run_set_up (env : environment) :
  env_open env = OpenOk ->
  run env init
  = match connect_and_run env set_up with
    | (Suspended, w1) => (Suspended, w1)
    | (Return _, w1) => (Return tt, released w1)
    | (Raise KeyboardInterrupt, w1) =>
        (Return tt,
         released (write (printed [[Chars "Interrupted by user. Closing..."]] nl) w1))
    | (Raise r, w1) => (Raise r, released w1)
    end.
Proof.
  intro Ho. unfold run, try_finally, try_except_interrupt, bind.
  rewrite Ho.
  change (setup_audio_stream OpenOk init) with (Return tt, set_up).
  cbv beta iota.
  destruct (connect_and_run env set_up) as [[[] | [e | |] |] w1];
    rewrite ?py_print_write; unfold released, exec;
    rewrite ?cleanup_spec; reflexivity.
Qed.

(** C4. Whenever the controller's wait for the two tasks completes, be it
    by returning, by being cancelled or by an exception coming out of a
    task, [connect_and_run] goes on to its teardown: at its end the flag
    is false, the last call on the channel is its close, and the last
    calls on the audio device are stopping and closing the stream and
    terminating the audio interface. *)
Theorem teardown_on_completion :
  forall (env : environment) (w : world),
    env_connect env = OpenOk ->
    env_config env = SendOk ->
    present (stream w) = true ->
    present (audio_interface w) = true ->
    result (await_gather (env_schedule env) Running Running) (at_wait w)
      <> Suspended ->
    let w' := exec (connect_and_run env) w in
    result (connect_and_run env) w <> Suspended
    /\ is_streaming w' = false
    /\ (exists ch, channel w' = ch ++ [ChClose])
    /\ (exists dev,
          device w' = dev ++ [DevStopStream; DevCloseStream; DevTerminate]).
Proof.
  intros env w Hc Hs Hst Hai Hdone w'. subst w'.
  pose proof (await_gather_during_wait (env_schedule env) Running Running
                (at_wait w)) as (Ha & Hs' & _ & _).
  unfold exec, result in *.
  rewrite (connect_and_run_wait env w Hc Hs).
  destruct (await_gather (env_schedule env) Running Running (at_wait w))
    as [o w2]. simpl in Ha, Hs', Hdone.
  assert (Hrel : forall out, release_ops (write out (closed w2))
                             = [DevStopStream; DevCloseStream; DevTerminate]).
  { intro out. unfold release_ops; simpl. rewrite Ha, Hs'.
    destruct (stream w), (audio_interface w);
      try discriminate Hst; try discriminate Hai; reflexivity. }
  assert (Hrel0 : release_ops (closed w2)
                  = [DevStopStream; DevCloseStream; DevTerminate]).
  { rewrite <- (Hrel []). now rewrite write_nil. }
  destruct o as [[] | [e | |] |]; try (now elim Hdone);
    rewrite released_spec, ?Hrel, ?Hrel0; simpl; rewrite ?app_nil_r;
    (split; [discriminate |]); (split; [reflexivity |]);
    split; eexists; reflexivity.
Qed.

(** C4, at an input: the pump's first send is interrupted
    ([KeyboardInterrupt] comes out of the task and out of the wait). *)
Lemma teardown_on_completion_witness :
  let env :=
    session [PumpTurn (PumpIO (ReadOk [x00; x01]%byte)
                              (SendRaises KeyboardInterrupt))] in
  let w' := exec (connect_and_run env) set_up in
  result (connect_and_run env) set_up <> Suspended
  /\ is_streaming w' = false
  /\ (exists ch, channel w' = ch ++ [ChClose])
  /\ (exists dev,
        device w' = dev ++ [DevStopStream; DevCloseStream; DevTerminate]).
Proof.
  intro env.
  apply (@teardown_on_completion env set_up);
    try reflexivity.
  vm_compute. discriminate.
Defined.

(** While only the dispatcher takes turns and the channel keeps
    delivering messages, a wait in which the pump has already returned
    stays suspended. *)
Lemma await_gather_pump_returned (ms : list message) (w : world) :
  await_gather (receive ms) Returned Running w
  = (Suspended, write (outputs_of ms) w).
Proof.
  revert w. induction ms as [| m ms IH]; intro w.
  - unfold outputs_of; simpl. now rewrite write_nil.
  - simpl. unfold bind. rewrite dispatch_step_recv.
    fold (receive ms). rewrite IH, write_write. reflexivity.
Qed.

(** C1. The wait does not end with the first task: with one task
    returned and the other still running, [asyncio.gather] has no result
    yet. In a run where the audio device fails at the pump's first read,
    the pump task returns (having cleared the flag), and from then on,
    for as many messages as the dispatcher goes on to receive, [run]
    stays suspended in the wait: the channel has not been closed and the
    audio device has not been released. *)
Theorem wait_outlasts_first_task :
  forall (e : exception) (ms : list message),
    let env := session (device_fails e :: receive ms) in
    let w' := exec (run env) init in
    gather Returned Running = Suspended
    /\ gather Running Returned = Suspended
    /\ result (run env) init = Suspended
    /\ is_streaming w' = false
    /\ channel w' = [ChSend session_config]
    /\ device w' = [DevOpen FORMAT CHANNELS RATE CHUNK;
                    DevRead (ReadRaises (Exc e))].
Proof.
  intros e ms env w'. split; [reflexivity |]. split; [reflexivity |].
  assert (Hrun : run env init
                 = (Suspended,
                    write (outputs_of ms)
                      (stopped (write (streaming_error e)
                         (record_ops [DevRead (ReadRaises (Exc e))] []
                            (at_wait set_up)))))).
  { unfold run, try_finally, try_except_interrupt, bind.
    change (setup_audio_stream (env_open env) init) with (Return tt, set_up).
    cbv beta iota.
    rewrite (@connect_and_run_wait env set_up eq_refl eq_refl).
    change (env_schedule env) with (device_fails e :: receive ms).
    unfold device_fails. cbn [await_gather gather]. unfold bind.
    unfold turn.
    rewrite (@pump_step_fails _ e (at_wait set_up) eq_refl eq_refl)
      by (left; reflexivity).
    rewrite await_gather_pump_returned. reflexivity. }
  unfold w', result, exec. rewrite Hrun. simpl. auto.
Qed.

(** [cleanup] leaves the handles in place, so a second [cleanup] finds
    the same stream and the same audio interface to release. *)
Lemma release_ops_released (w : world) : release_ops (released w) = release_ops w.
Proof. rewrite released_spec. reflexivity. Qed.

Lemma cleanup_cleanup (w : world) :
  (cleanup ;; cleanup) w
  = (Return tt, record_ops (release_ops w ++ release_ops w) [] (stopped w)).
Proof.
  unfold bind. rewrite cleanup_spec, cleanup_spec.
  destruct w as [ai st fl ws co ch dv].
  unfold record_ops, stopped, release_ops, exec; simpl.
  now rewrite <- !app_assoc.
Qed.

(** Whenever [connect_and_run] completes, the last thing it has done is
    a [cleanup], on a transcriber holding the handles it started with. *)
Lemma connect_and_run_ends_released (env : environment) (w : world) :
  result (connect_and_run env) w <> Suspended ->
  exists w1,
    exec (connect_and_run env) w = released w1
    /\ stream w1 = stream w
    /\ audio_interface w1 = audio_interface w.
Proof.
  unfold result, exec. intro Hdone.
  destruct (env_connect env) as [| r] eqn:Hc.
  - destruct (env_config env) as [| r] eqn:Hs.
    + pose proof (await_gather_during_wait (env_schedule env) Running Running
                    (at_wait w)) as (Ha & Hst & _).
      unfold exec in Ha, Hst.
      rewrite (connect_and_run_wait env w Hc Hs) in *.
      destruct (await_gather (env_schedule env) Running Running (at_wait w))
        as [[[] | [e | |] |] w2]; cbn [fst snd] in *;
        try (now elim Hdone);
        eexists; (split; [reflexivity |]); split; assumption.
    + rewrite (connect_and_run_config_fails env w Hc Hs) in *.
      destruct r as [e | |]; eexists; (split; [reflexivity |]);
        split; reflexivity.
  - rewrite (connect_and_run_refused env w Hc) in *.
    destruct r as [e | |]; eexists; (split; [reflexivity |]);
      split; reflexivity.
Qed.

(** C5. The second [cleanup] releases again. Every [run] that opens the
    audio stream and completes has called [cleanup] twice, once in the
    [finally] of [connect_and_run] and once in its own, and since the
    first call leaves [self.stream] and [self.audio_interface] set, the
    second call stops and closes the stream and terminates the audio
    interface a second time: the device log of the run ends with the
    three release calls made twice over. The same holds of any two
    [cleanup] calls in a row, neither of which raises. *)
Theorem cleanup_twice_releases_twice :
  forall (env : environment),
    env_open env = OpenOk ->
    result (run env) init <> Suspended ->
    (exists dev,
        device (exec (run env) init)
        = dev ++ [DevStopStream; DevCloseStream; DevTerminate]
              ++ [DevStopStream; DevCloseStream; DevTerminate])
    /\ (forall w : world,
          result (cleanup ;; cleanup) w = Return tt
          /\ device (exec (cleanup ;; cleanup) w)
             = device w ++ release_ops w ++ release_ops w).
Proof.
  intros env Ho Hdone. split.
  - unfold result, exec in *. rewrite (run_set_up env Ho) in *.
    assert (Hcr : result (connect_and_run env) set_up <> Suspended).
    { unfold result. intro Hs.
      destruct (connect_and_run env set_up) as [o w1]. simpl in Hs. subst o.
      now apply Hdone. }
    destruct (connect_and_run_ends_released env set_up Hcr)
      as (w1 & Hw1 & Hst & Hai).
    unfold exec in Hw1.
    assert (Hops : forall out,
              release_ops (write out (released w1))
              = [DevStopStream; DevCloseStream; DevTerminate]).
    { intro out. rewrite released_spec. unfold release_ops; simpl.
      now rewrite Hst, Hai. }
    assert (Hops1 : release_ops w1
                    = [DevStopStream; DevCloseStream; DevTerminate]).
    { unfold release_ops. now rewrite Hst, Hai. }
    assert (Hdev : forall out,
              device (released (write out (released w1)))
              = device w1 ++ [DevStopStream; DevCloseStream; DevTerminate]
                  ++ [DevStopStream; DevCloseStream; DevTerminate]).
    { intro out. rewrite (released_spec (write out (released w1))), Hops.
      rewrite released_spec, Hops1. simpl.
      now rewrite <- app_assoc. }
    exists (device w1).
    destruct (connect_and_run env set_up) as [[[] | [e | |] |] w2];
      cbn [fst snd] in *; subst w2; try (now elim Hcr);
      try apply Hdev;
      rewrite <- (write_nil (released w1)); apply Hdev.
  - intro w. unfold result, exec. rewrite cleanup_cleanup. simpl.
    split; [reflexivity |]. now rewrite app_assoc.
Qed.

(** C5, at an input: the server closes the channel and the pump's next
    send fails; the stream is closed twice and the audio interface is
    terminated twice. *)
Lemma cleanup_twice_releases_twice_witness :
  let env :=
    session
      [DispatcherTurn EndOfStream;
       PumpTurn (PumpIO (ReadOk [x00; x01]%byte)
                   (SendRaises (Exc (Exception ConnectionClosed
                                       "no close frame received or sent"))))]
  in
  (exists dev,
      device (exec (run env) init)
      = dev ++ [DevStopStream; DevCloseStream; DevTerminate]
            ++ [DevStopStream; DevCloseStream; DevTerminate])
  /\ result (run env) init = Return tt
  /\ device (exec (run env) init)
     = [DevOpen FORMAT CHANNELS RATE CHUNK;
        DevRead (ReadOk [x00; x01]%byte);
        DevStopStream; DevCloseStream; DevTerminate;
        DevStopStream; DevCloseStream; DevTerminate]
  /\ count_op DevCloseStream (device (exec (run env) init)) = 2
  /\ count_op DevTerminate (device (exec (run env) init)) = 2.
Proof.
  intro env. split.
  - apply (@cleanup_twice_releases_twice env).
    + reflexivity.
    + vm_compute. discriminate.
  - repeat split; reflexivity.
Defined.

(** ** Base64 text determines the bytes *)

Ltac n_arith := zify; Z.to_euclidean_division_equations; lia.

Lemma sextet_digit (n : N) :
  (n < 64)%N -> base64.sextet (base64.digit n) = Some n.
Proof.
  intro Hn.
  assert (Hall :
    forallb (fun k => match base64.sextet (base64.digit k) with
                      | Some v => N.eqb v k
                      | None => false
                      end)
            (List.map N.of_nat (List.seq 0 64)) = true) by (vm_compute; reflexivity).
  rewrite forallb_forall in Hall.
  specialize (Hall n).
  destruct (base64.sextet (base64.digit n)) as [v |].
  - rewrite (proj1 (N.eqb_eq v n)); [reflexivity |].
    apply Hall. rewrite <- (N2Nat.id n). apply in_map. apply in_seq. lia.
  - assert (false = true) as Habs; [| discriminate Habs].
    apply Hall. rewrite <- (N2Nat.id n). apply in_map. apply in_seq. lia.
Qed.

Lemma byte_bound (a : byte) : (Byte.to_N a < 256)%N.
Proof. pose proof (Byte.to_N_bounded a). lia. Qed.

(** Induction on a list, three elements at a time. *)
Lemma list_ind3 (A : Type) (P : list A -> Prop) :
  P [] -> (forall a, P [a]) -> (forall a b, P [a; b]) ->
  (forall a b c l, P l -> P (a :: b :: c :: l)) ->
  forall l, P l.
Proof.
  intros H0 H1 H2 H3.
  assert (H : forall l, P l /\ (forall a, P (a :: l)) /\ (forall a b, P (a :: b :: l))).
  { induction l as [| x l (IH0 & IH1 & IH2)].
    - auto.
    - repeat split; auto. }
  intro l. apply H.
Qed.

Lemma b64decode_b64encode (data : list byte) :
  base64.b64decode (base64.b64encode data) = Some data.
Proof.
  induction data as [| a | a b | a b c l IH] using list_ind3.
  - reflexivity.
  - pose proof (byte_bound a) as Ha.
    cbn [base64.b64encode base64.b64decode].
    rewrite !sextet_digit by n_arith.
    change (base64.sextet base64.pad) with (@None N).
    cbn [Ascii.eqb andb String.eqb Bool.eqb base64.pad].
    unfold base64.bytes1.
    replace (Byte.to_N a / 4 * 4 + Byte.to_N a mod 4 * 16 / 16)%N
      with (Byte.to_N a) by n_arith.
    now rewrite Byte.of_to_N.
  - pose proof (byte_bound a) as Ha. pose proof (byte_bound b) as Hb.
    cbn [base64.b64encode base64.b64decode].
    rewrite !sextet_digit by n_arith.
    change (base64.sextet base64.pad) with (@None N).
    cbn [Ascii.eqb andb String.eqb Bool.eqb base64.pad].
    unfold base64.bytes2.
    replace (Byte.to_N a / 4 * 4
             + (Byte.to_N a mod 4 * 16 + Byte.to_N b / 16) / 16)%N
      with (Byte.to_N a) by n_arith.
    replace ((Byte.to_N a mod 4 * 16 + Byte.to_N b / 16) mod 16 * 16
             + Byte.to_N b mod 16 * 4 / 4)%N
      with (Byte.to_N b) by n_arith.
    now rewrite !Byte.of_to_N.
  - pose proof (byte_bound a) as Ha. pose proof (byte_bound b) as Hb.
    pose proof (byte_bound c) as Hc.
    cbn [base64.b64encode base64.b64decode].
    rewrite !sextet_digit by n_arith.
    rewrite IH. unfold base64.bytes3.
    replace (Byte.to_N a / 4 * 4
             + (Byte.to_N a mod 4 * 16 + Byte.to_N b / 16) / 16)%N
      with (Byte.to_N a) by n_arith.
    replace ((Byte.to_N a mod 4 * 16 + Byte.to_N b / 16) mod 16 * 16
             + (Byte.to_N b mod 16 * 4 + Byte.to_N c / 64) / 4)%N
      with (Byte.to_N b) by n_arith.
    replace ((Byte.to_N b mod 16 * 4 + Byte.to_N c / 64) mod 4 * 64
             + Byte.to_N c mod 64)%N
      with (Byte.to_N c) by n_arith.
    now rewrite !Byte.of_to_N.
Qed.

(** Different frames give different messages. *)
Lemma audio_append_injective (f g : frame) :
  audio_append f = audio_append g -> f = g.
Proof.
  unfold audio_append. intro H. injection H as H.
  apply (f_equal base64.b64decode) in H.
  rewrite !b64decode_b64encode in H. now injection H.
Qed.

(** ** Frames read and messages sent *)

Lemma frames_read_release_ops (w : world) : frames_read (release_ops w) = [].
Proof.
  unfold release_ops. destruct (stream w), (audio_interface w); reflexivity.
Qed.

Lemma traffic_released (w : world) : traffic (released w) = traffic w.
Proof.
  rewrite released_spec. unfold traffic; simpl.
  now rewrite frames_read_app, frames_read_release_ops, !app_nil_r.
Qed.

Lemma traffic_closed (w : world) : traffic (closed w) = traffic w.
Proof.
  unfold traffic; simpl. now rewrite sent_app, app_nil_r.
Qed.

Lemma traffic_write (out : text) (w : world) : traffic (write out w) = traffic w.
Proof. reflexivity. Qed.

(** During the wait the messages sent are the audio-append messages of
    the frames read, in order. *)
Lemma traffic_during_wait (w w' : world) :
  during_wait w w' ->
  exists frames,
    traffic w'
    = (fst (traffic w) ++ frames,
       snd (traffic w) ++ List.map audio_append frames).
Proof.
  intros (_ & _ & _ & reads & _ & Hd & Hc).
  exists (frames_read reads). unfold traffic; simpl.
  now rewrite Hd, Hc, frames_read_app, sent_app, sent_audio.
Qed.

(** The traffic of [connect_and_run]: either nothing at all (no
    connection), or the configuration message followed by one
    audio-append message per frame read, in order. *)
Lemma connect_and_run_traffic (env : environment) (w : world) :
  exists frames,
    (frames = [] \/ (env_connect env = OpenOk /\ env_config env = SendOk))
    /\ (traffic (exec (connect_and_run env) w)
        = (fst (traffic w) ++ frames,
           snd (traffic w) ++ session_config :: List.map audio_append frames)
        \/ (frames = [] /\ traffic (exec (connect_and_run env) w) = traffic w)).
Proof.
  destruct (env_connect env) as [| r] eqn:Hc.
  - destruct (env_config env) as [| r] eqn:Hs.
    + pose proof (await_gather_during_wait (env_schedule env) Running Running
                    (at_wait w)) as Hw.
      apply traffic_during_wait in Hw as [frames Hw].
      exists frames. split; [right; split; reflexivity | left].
      unfold exec in *. rewrite (connect_and_run_wait env w Hc Hs).
      destruct (await_gather (env_schedule env) Running Running (at_wait w))
        as [o w2]. cbn [snd] in Hw.
      assert (Hat : traffic (at_wait w)
                    = (fst (traffic w), snd (traffic w) ++ [session_config])).
      { unfold traffic; simpl. now rewrite sent_app. }
      rewrite Hat in Hw. cbn [fst snd] in Hw.
      rewrite <- app_assoc in Hw. cbn [app] in Hw.
      destruct o as [[] | [e | |] |]; cbn [snd];
        rewrite ?traffic_released, ?traffic_write, ?traffic_closed; exact Hw.
    + exists []. split; [left; reflexivity | left].
      unfold exec. rewrite (connect_and_run_config_fails env w Hc Hs).
      assert (Hat : traffic (at_wait w)
                    = (fst (traffic w), snd (traffic w) ++ [session_config])).
      { unfold traffic; simpl. now rewrite sent_app. }
      destruct r as [e | |]; simpl;
        rewrite ?traffic_released, ?traffic_write, ?traffic_closed, Hat;
        now rewrite app_nil_r.
  - exists []. split; [left; reflexivity | right].
    split; [reflexivity |].
    unfold exec. rewrite (connect_and_run_refused env w Hc).
    destruct r as [e | |]; simpl;
      rewrite ?traffic_released, ?traffic_write; reflexivity.
Qed.

(** [run] when the audio stream cannot be opened: no traffic. *)
Lemma run_not_set_up (env : environment) (r : raised) :
  env_open env = OpenRaises r -> traffic (exec (run env) init) = ([], []).
Proof.
  intro Ho. unfold exec, run, try_finally, try_except_interrupt, bind,
    setup_audio_stream.
  rewrite Ho. destruct r as [e | |]; reflexivity.
Qed.

Lemma run_traffic (env : environment) :
  exists frames,
    (frames = []
     \/ (env_open env = OpenOk /\ env_connect env = OpenOk
         /\ env_config env = SendOk))
    /\ (traffic (exec (run env) init)
        = (frames, session_config :: List.map audio_append frames)
        \/ (frames = [] /\ traffic (exec (run env) init) = ([], []))).
Proof.
  destruct (env_open env) as [| r] eqn:Ho.
  - destruct (connect_and_run_traffic env set_up) as (frames & Hok & H).
    exists frames.
    assert (Hrun : traffic (exec (run env) init)
                   = traffic (exec (connect_and_run env) set_up)).
    { unfold exec. rewrite (run_set_up env Ho).
      destruct (connect_and_run env set_up) as [[[] | [e | |] |] w1];
        cbn [snd]; rewrite ?traffic_released, ?traffic_write; reflexivity. }
    rewrite Hrun. split; [| exact H].
    destruct Hok as [-> | [Hc Hs]]; [left | right]; auto.
  - exists []. split; [left; reflexivity | right].
    split; [reflexivity |]. exact (run_not_set_up env Ho).
Qed.

(** A turn of the pump, by what it reads and whether it goes on: a pass
    in which read and send go well reads one frame and the task goes on;
    a pass whose send raises has read its frame and is the task's last;
    any other turn reads no frame and is the task's last. *)
Lemma pump_turn_cases (io : pump_io) (w : world) :
  exists (a : task) (w1 : world),
    turn (pump_step io) w = (Return a, w1)
    /\ ((exists f, io = ok_io f /\ a = Running
                   /\ frames_read (device w1) = frames_read (device w) ++ [f])
        \/ (a <> Running /\ frames_read (device w1) = frames_read (device w))
        \/ (exists f r, io = send_fails f r /\ a <> Running
                        /\ frames_read (device w1)
                           = frames_read (device w) ++ [f])).
Proof.
  destruct w as [ai st fl ws co ch dv], io as [r sr].
  unfold turn, pump_step, try_except, pump_test; simpl.
  destruct fl; simpl;
    [| do 2 eexists; split; [reflexivity |]; right; left;
       split; [discriminate | reflexivity]].
  destruct ws as [h |]; simpl;
    [| do 2 eexists; split; [reflexivity |]; right; left;
       split; [discriminate | reflexivity]].
  unfold pump_body, bind, stream_read; simpl.
  destruct st as [s |]; simpl;
    [| do 2 eexists; split; [reflexivity |]; right; left;
       split; [discriminate | reflexivity]].
  destruct r as [f | [e | |]]; simpl.
  - destruct sr as [| [e | |]]; simpl; do 2 eexists;
      (split; [reflexivity |]).
    + left. exists f. repeat split. simpl. now rewrite frames_read_app.
    + right; right. exists f, (Exc e). repeat split; try discriminate.
      simpl. now rewrite frames_read_app.
    + right; right. exists f, CancelledError. repeat split; try discriminate.
      simpl. now rewrite frames_read_app.
    + right; right. exists f, KeyboardInterrupt.
      repeat split; try discriminate. simpl. now rewrite frames_read_app.
  - do 2 eexists; split; [reflexivity |]. right; left.
    split; [discriminate |]. simpl. rewrite frames_read_app. simpl.
    now rewrite app_nil_r.
  - do 2 eexists; split; [reflexivity |]. right; left.
    split; [discriminate |]. simpl. rewrite frames_read_app. simpl.
    now rewrite app_nil_r.
  - do 2 eexists; split; [reflexivity |]. right; left.
    split; [discriminate |]. simpl. rewrite frames_read_app. simpl.
    now rewrite app_nil_r.
Qed.

(** The frames read during the wait are those of the pump's first
    passes: in each pass but possibly the last of them the send has
    returned, and a pass whose send raises is the last to read. A pump
    that has finished reads nothing. *)
Lemma await_gather_passes (sched : list event) :
  forall (a m : task) (w : world),
    exists oks last,
      frames_read (device (exec (await_gather sched a m) w))
      = frames_read (device w) ++ oks ++ last
      /\ (a <> Running -> oks = [] /\ last = [])
      /\ sends_returned sched oks
      /\ (last = []
          \/ exists f r rest,
               last = [f]
               /\ pump_passes sched
                  = List.map ok_io oks ++ send_fails f r :: rest).
Proof.
  assert (Hnone : forall sc (w w2 : world),
            frames_read (device w2) = frames_read (device w) ->
            exists oks last,
              frames_read (device w2) = frames_read (device w) ++ oks ++ last
              /\ (oks = [] /\ last = [])
              /\ sends_returned sc oks
              /\ (last = []
                  \/ exists f r rest,
                       last = [f]
                       /\ pump_passes sc
                          = List.map ok_io oks ++ send_fails f r :: rest)).
  { intros sc w w2 H. exists [], []. rewrite H, !app_nil_r.
    repeat split; [exists (pump_passes sc); reflexivity | left; reflexivity]. }
  assert (Hweak : forall sc (a : task) (w w2 : world),
            frames_read (device w2) = frames_read (device w) ->
            exists oks last,
              frames_read (device w2) = frames_read (device w) ++ oks ++ last
              /\ (a <> Running -> oks = [] /\ last = [])
              /\ sends_returned sc oks
              /\ (last = []
                  \/ exists f r rest,
                       last = [f]
                       /\ pump_passes sc
                          = List.map ok_io oks ++ send_fails f r :: rest)).
  { intros sc a w w2 H.
    destruct (Hnone sc w w2 H) as (oks & last & H1 & H2 & H3 & H4).
    exists oks, last. repeat split; auto; apply H2. }
  induction sched as [| ev sched IH]; intros a m w.
  - simpl. destruct (gather a m); apply Hweak; reflexivity.
  - simpl. destruct (gather a m); try (apply Hweak; reflexivity).
    destruct ev as [io | i | |].
    + destruct a.
      * destruct (pump_turn_cases io w) as (a' & w1 & Hturn & Hcases).
        unfold exec, bind. rewrite Hturn.
        destruct (IH a' m w1) as (oks & last & Hfr & Hidle & Hret & Hlast).
        unfold exec in Hfr.
        destruct Hcases as [(f & -> & -> & Hf)
                           | [(Ha' & Hf) | (f & r & -> & Ha' & Hf)]].
        -- exists (f :: oks), last. rewrite Hfr, Hf, <- app_assoc.
           split; [reflexivity |]. split; [intro H; now elim H |].
           split.
           ++ destruct Hret as [rest Hrest]. exists rest.
              cbn [pump_passes List.map app]. now rewrite Hrest.
           ++ destruct Hlast as [-> | (g & r & rest & -> & Hp)];
                [left; reflexivity | right].
              exists g, r, rest. split; [reflexivity |].
              cbn [pump_passes List.map app]. now rewrite Hp.
        -- destruct (Hidle Ha') as [-> ->]. rewrite app_nil_r in Hfr.
           exists [], []. rewrite Hfr, Hf, !app_nil_r.
           split; [reflexivity |]. split; [intro H; now elim H |].
           split; [eexists; reflexivity | left; reflexivity].
        -- destruct (Hidle Ha') as [-> ->]. rewrite app_nil_r in Hfr.
           exists [], [f]. rewrite Hfr, Hf.
           split; [reflexivity |]. split; [intro H; now elim H |].
           split; [eexists; reflexivity | right].
           exists f, r, (pump_passes sched). split; reflexivity.
      * destruct (IH Returned m w) as (oks & last & Hfr & Hidle & _ & _).
        destruct (Hidle ltac:(discriminate)) as [-> ->].
        rewrite !app_nil_r in Hfr. apply Hweak. exact Hfr.
      * destruct (IH (Failed r) m w) as (oks & last & Hfr & Hidle & _ & _).
        destruct (Hidle ltac:(discriminate)) as [-> ->].
        rewrite !app_nil_r in Hfr. apply Hweak. exact Hfr.
    + assert (Hstep : forall (t : task) (w1 : world),
                device w1 = device w ->
                exists oks last,
                  frames_read (device (exec (await_gather sched a t) w1))
                  = frames_read (device w) ++ oks ++ last
                  /\ (a <> Running -> oks = [] /\ last = [])
                  /\ sends_returned (DispatcherTurn i :: sched) oks
                  /\ (last = []
                      \/ exists f r rest,
                           last = [f]
                           /\ pump_passes (DispatcherTurn i :: sched)
                              = List.map ok_io oks ++ send_fails f r :: rest)).
      { intros t w1 Hd.
        destruct (IH a t w1) as (oks & last & Hfr & Hidle & Hret & Hlast).
        exists oks, last. rewrite Hd in Hfr. auto. }
      destruct m; try (apply Hstep; reflexivity).
      unfold exec, bind.
      destruct (dispatch_turn_writes i w) as (t & out & ->).
      apply (Hstep t (write out w)). reflexivity.
    + unfold exec, bind; simpl.
      destruct (IH a m (stopped w)) as (oks & last & Hfr & Hidle & Hret & Hlast).
      exists oks, last. auto.
    + apply (Hweak (CancelWait :: sched) a w). reflexivity.
Qed.

(** The frames read in a whole run. *)
Lemma run_passes (env : environment) :
  exists oks last,
    frames_read (device (exec (run env) init)) = oks ++ last
    /\ sends_returned (env_schedule env) oks
    /\ (last = []
        \/ exists f r rest,
             last = [f]
             /\ pump_passes (env_schedule env)
                = List.map ok_io oks ++ send_fails f r :: rest).
Proof.
  assert (Hnone : frames_read (device (exec (run env) init)) = [] ->
            exists oks last,
              frames_read (device (exec (run env) init)) = oks ++ last
              /\ sends_returned (env_schedule env) oks
              /\ (last = []
                  \/ exists f r rest,
                       last = [f]
                       /\ pump_passes (env_schedule env)
                          = List.map ok_io oks ++ send_fails f r :: rest)).
  { intro H. exists [], []. rewrite H.
    repeat split; [eexists; reflexivity | left; reflexivity]. }
  destruct (run_traffic env) as (frames & Hok & Htr).
  destruct Hok as [-> | (Ho & Hc & Hs)].
  - apply Hnone. destruct Htr as [H | [_ H]]; unfold traffic in H;
      now injection H.
  - clear Htr.
    destruct (await_gather_passes (env_schedule env) Running Running
                (at_wait set_up))
      as (oks & last & Hfr & _ & Hret & Hlast).
    exists oks, last. split; [| split; assumption].
    change (frames_read (device (at_wait set_up))) with (@nil frame) in Hfr.
    cbn [app] in Hfr. rewrite <- Hfr.
    change (frames_read (device (exec (run env) init)))
      with (fst (traffic (exec (run env) init))).
    change (frames_read
              (device
                 (exec (await_gather (env_schedule env) Running Running)
                    (at_wait set_up))))
      with (fst (traffic
                   (exec (await_gather (env_schedule env) Running Running)
                      (at_wait set_up)))).
    f_equal. unfold exec.
    rewrite (run_set_up env Ho), (connect_and_run_wait env set_up Hc Hs).
    destruct (await_gather (env_schedule env) Running Running (at_wait set_up))
      as [[[] | [e | |] |] w2]; cbn [snd];
      rewrite ?traffic_released, ?traffic_write, ?traffic_released,
        ?traffic_write, ?traffic_closed;
      reflexivity.
Qed.

(** C2, as amended. In every run, the payloads handed to
    [websocket.send] are the session configuration followed by one
    audio-append message per frame the pump has read, in the order of the
    reads (or nothing at all, when no connection came about and no frame
    was read). So for N frames read, exactly N audio-append messages are
    handed to the channel, all after the single configuration message,
    whose send had returned before the first frame was read; the i-th of
    them carries in its "audio" field the Base64 text of the i-th frame,
    and that text decodes back to the frame's bytes. The sends of all of
    them but possibly the last have returned; the send of the last one
    has returned as well or it has raised, and then no further frame is
    read: N or N-1 messages have been sent. And while reads and sends go
    well the pump keeps going: after N such passes it has read the N
    frames and sent their N messages, each send having returned, and goes
    on with the next pass. *)
Theorem audio_frames_handed_after_config :
  forall (env : environment),
    let w' := exec (run env) init in
    let frames := frames_read (device w') in
    (sent (channel w') = session_config :: List.map audio_append frames
     \/ (sent (channel w') = [] /\ frames = []))
    /\ (frames <> [] -> env_config env = SendOk)
    /\ (forall i f,
          nth_error frames i = Some f ->
          nth_error (sent (channel w')) (S i)
          = Some (VDict [("type", VStr "input_audio_buffer.append");
                         ("audio", VStr (base64.b64encode f))])
          /\ base64.b64decode (base64.b64encode f) = Some f)
    /\ ~ In session_config (List.map audio_append frames)
    /\ (exists oks last,
          frames = oks ++ last
          /\ sends_returned (env_schedule env) oks
          /\ (last = []
              \/ exists f r rest,
                   last = [f]
                   /\ pump_passes (env_schedule env)
                      = List.map ok_io oks ++ send_fails f r :: rest))
    /\ (forall (fs : list frame) (rest : list pump_io) (w : world),
          pump_test w = true ->
          present (stream w) = true ->
          stream_microphone (List.map ok_io fs ++ rest) w
          = stream_microphone rest
              (record_ops (List.map (fun f => DevRead (ReadOk f)) fs)
                          (List.map (fun f => ChSend (audio_append f)) fs) w)).
Proof.
  intros env w' frames.
  assert (Hcases :
    (frames = [] \/ env_config env = SendOk)
    /\ (sent (channel w') = session_config :: List.map audio_append frames
        \/ (sent (channel w') = [] /\ frames = []))).
  { destruct (run_traffic env) as (fs & Hok & [H | [-> H]]);
      unfold traffic in H; fold w' in H; injection H as Hf Hs.
    - split.
      + destruct Hok as [-> | (_ & _ & Hcfg)]; [left | right]; auto.
      + left. subst frames. now rewrite Hf, Hs.
    - split; [left; exact Hf |]. right. subst frames. now rewrite Hf, Hs. }
  destruct Hcases as [Hok Hcases].
  split; [exact Hcases | split; [| split; [| split; [| split]]]].
  - intro Hne. destruct Hok as [Hnil | Hcfg]; [contradiction | exact Hcfg].
  - intros i f Hi. split; [| apply b64decode_b64encode].
    destruct Hcases as [-> | [_ Hnil]].
    + simpl. rewrite nth_error_map, Hi. reflexivity.
    + rewrite Hnil in Hi. destruct i; discriminate Hi.
  - intro Hin. apply in_map_iff in Hin as (f & Hf & _). discriminate Hf.
  - apply run_passes.
  - intros fs rest w Ht Hs. now apply stream_microphone_ok_passes.
Qed.

(** C2, at an input: two frames go out before the server closes the
    channel; the pump reads a third frame, whose message is handed over
    as the third, and its send fails. *)
Lemma audio_frames_handed_after_config_witness :
  let env :=
    session
      [PumpTurn (ok_io [x00; x01; x02]%byte);
       PumpTurn (ok_io [xff; xfe]%byte);
       DispatcherTurn EndOfStream;
       PumpTurn (send_fails [x10]%byte
                   (Exc (Exception ConnectionClosed
                           "no close frame received or sent")))] in
  frames_read (device (exec (run env) init))
  = [[x00; x01; x02]; [xff; xfe]; [x10]]%byte
  /\ sent (channel (exec (run env) init))
     = [session_config;
        VDict [("type", VStr "input_audio_buffer.append"); ("audio", VStr "AAEC")];
        VDict [("type", VStr "input_audio_buffer.append"); ("audio", VStr "//4=")];
        VDict [("type", VStr "input_audio_buffer.append"); ("audio", VStr "EA==")]]
  /\ nth_error (sent (channel (exec (run env) init))) 2
     = Some (VDict [("type", VStr "input_audio_buffer.append");
                    ("audio", VStr (base64.b64encode [xff; xfe]%byte))])
  /\ env_config env = SendOk.
Proof.
  intro env.
  destruct (audio_frames_handed_after_config env)
    as (_ & Hcfg & Hnth & _).
  split; [reflexivity |]. split; [reflexivity |]. split.
  - apply (Hnth 1%nat [xff; xfe]%byte). reflexivity.
  - apply Hcfg. vm_compute. discriminate.
Defined.

(** C2, as stated, fails when the last send raises: here three frames
    are read while the flag is true and three audio-append messages are
    handed to [websocket.send], but the third send raises
    [ConnectionClosed] (the pump reports it), so that the sends of two
    messages have returned, not of three. *)
Lemma last_send_raises_after_read :
  let closed_error :=
    Exception ConnectionClosed "no close frame received or sent" in
  let env :=
    session
      [PumpTurn (ok_io [x00; x01; x02]%byte);
       PumpTurn (ok_io [xff; xfe]%byte);
       DispatcherTurn EndOfStream;
       PumpTurn (send_fails [x10]%byte (Exc closed_error))] in
  let w' := exec (run env) init in
  frames_read (device w') = [[x00; x01; x02]; [xff; xfe]; [x10]]%byte
  /\ List.length (frames_read (device w')) = 3%nat
  /\ sent (channel w')
     = session_config
       :: List.map audio_append [[x00; x01; x02]; [xff; xfe]; [x10]]%byte
  /\ pump_passes (env_schedule env)
     = [ok_io [x00; x01; x02]%byte; ok_io [xff; xfe]%byte;
        send_fails [x10]%byte (Exc closed_error)]
  /\ websocket_send (audio_append [x10]%byte) (SendRaises (Exc closed_error))
       ready
     = (Raise (Exc closed_error),
        record_ops [] [ChSend (audio_append [x10]%byte)] ready)
  /\ console w'
     = [Chars "Connecting to Azure OpenAI Realtime API..."; Chars nl;
        Chars "Connected! Start speaking..."; Chars nl;
        Chars "Audio streaming error:"; Chars " ";
        Chars "no close frame received or sent"; Chars nl]
  /\ sends_returned (env_schedule env) [[x00; x01; x02]; [xff; xfe]]%byte
  /\ (sends_returned (env_schedule env)
        [[x00; x01; x02]; [xff; xfe]; [x10]]%byte -> False).
Proof.
  intros closed_error env w'.
  repeat (split; [reflexivity |]).
  split.
  - eexists. reflexivity.
  - intros [rest H]. discriminate H.
Qed.

(** ** The scenarios of the repository's tests *)

(** [test_cleanup]: one [cleanup] on a streaming transcriber clears the
    flag and makes each release call once. *)
Example test_cleanup :
  cleanup ready
  = (Return tt,
     record_ops [DevStopStream; DevCloseStream; DevTerminate] [] (stopped ready)).
Proof. reflexivity. Qed.

(** [test_send_session_config]: one send, of the configuration. *)
Example test_send_session_config :
  channel (exec (send_session_config SendOk) connected)
  = [ChSend session_config]
  /\ dict_get
       match session_config with VDict d => d | _ => [] end
       "type" VNone
     = VStr "transcription_session.update".
Proof. split; reflexivity. Qed.

(** [test_handle_websocket_malformed_json]: text that is not JSON, then
    an event of an unknown kind, which is announced by its type. *)
Example test_handle_websocket_malformed_json :
  handle_websocket_messages
    [Recv (malformed "invalid json {");
     Recv (Document (VDict [("type", VStr "valid_message")]))]
    connected
  = (Suspended,
     write [Chars "Event type:"; Chars " "; Chars "valid_message"; Chars nl]
       connected).
Proof. reflexivity. Qed.

(** [test_handle_websocket_messages_error]: an error event is echoed
    whole. *)
Example test_handle_websocket_messages_error :
  console
    (exec (handle_websocket_messages
             (deliver
                [VDict [("type", VStr "error");
                        ("error", VDict [("message", VStr "Test error")])]]))
       connected)
  = [Chars "Event type:"; Chars " "; Chars "error"; Chars nl;
     Chars "Error event:"; Chars " ";
     StrOf (VDict [("type", VStr "error");
                   ("error", VDict [("message", VStr "Test error")])]);
     Chars nl].
Proof. reflexivity. Qed.

(* ================================================================== *)
(** * Further properties *)

(** ** Module-level configuration *)

(** X1. Importing the module raises the key error when the key variable
    is unset or empty, whatever the endpoint variable holds and without
    the client being constructed; it raises the endpoint error when the
    key is set and the endpoint variable is unset or empty; with both
    set, the client is constructed from the key, the API version and the
    endpoint, and the import raises what the constructor raises or, when
    the constructor returns, succeeds. When it succeeds the globals hold
    the two values as found, the client, the URL built from the endpoint,
    and the key as the only header. *)
Theorem import_module_checks :
  forall (AzureOpenAI : client_args -> construct_result) (env : environ),
    let key := environ_get env "AZURE_OPENAI_STT_TTS_KEY" in
    let endpoint := environ_get env "AZURE_OPENAI_STT_TTS_ENDPOINT" in
    (is_set key = false ->
     import_module AzureOpenAI env = inr (Exc KEY_MISSING))
    /\ (is_set key = true -> is_set endpoint = false ->
        import_module AzureOpenAI env = inr (Exc ENDPOINT_MISSING))
    /\ (forall k ep,
          key = Some k -> endpoint = Some ep ->
          is_set key = true -> is_set endpoint = true ->
          import_module AzureOpenAI env
          = match AzureOpenAI (ClientArgs k "2025-04-01-preview" ep) with
            | ConstructRaises r => inr r
            | Constructed =>
                inl {| AZURE_OPENAI_API_KEY := k;
                       AZURE_OPENAI_ENDPOINT := ep;
                       client := ClientArgs k "2025-04-01-preview" ep;
                       websocket_url := websocket_url_of ep;
                       headers := [("api-key", k)] |}
            end)
    /\ (forall g, import_module AzureOpenAI env = inl g ->
          key = Some (AZURE_OPENAI_API_KEY g)
          /\ endpoint = Some (AZURE_OPENAI_ENDPOINT g)
          /\ AZURE_OPENAI_API_KEY g <> ""
          /\ AZURE_OPENAI_ENDPOINT g <> ""
          /\ client g = ClientArgs (AZURE_OPENAI_API_KEY g) "2025-04-01-preview"
                                   (AZURE_OPENAI_ENDPOINT g)
          /\ AzureOpenAI (client g) = Constructed
          /\ websocket_url g = websocket_url_of (AZURE_OPENAI_ENDPOINT g)
          /\ headers g = [("api-key", AZURE_OPENAI_API_KEY g)])
    /\ (forall r, import_module AzureOpenAI env = inr r ->
          (is_set key = false /\ r = Exc KEY_MISSING)
          \/ (is_set key = true /\ is_set endpoint = false
              /\ r = Exc ENDPOINT_MISSING)
          \/ (exists k ep,
                key = Some k /\ endpoint = Some ep
                /\ is_set key = true /\ is_set endpoint = true
                /\ AzureOpenAI (ClientArgs k "2025-04-01-preview" ep)
                   = ConstructRaises r)).
Proof.
  intros AzureOpenAI env key endpoint. unfold import_module.
  fold key endpoint.
  destruct key as [k |]; cbn [is_set].
  2: { repeat split; try discriminate.
       intros r H. injection H as <-. left. split; reflexivity. }
  destruct (String.eqb_spec k "") as [Hk | Hk]; cbn [negb].
  { repeat split; try discriminate.
    intros r H. injection H as <-. left. split; reflexivity. }
  destruct endpoint as [ep |]; cbn [is_set].
  2: { repeat split; try discriminate.
       intros r H. injection H as <-. right; left. repeat split. }
  destruct (String.eqb_spec ep "") as [Hep | Hep]; cbn [negb].
  { repeat split; try discriminate.
    intros r H. injection H as <-. right; left. repeat split. }
  cbv zeta.
  split; [discriminate |]. split; [discriminate |].
  split; [| split].
  - intros k' ep' Hk' Hep' _ _. injection Hk' as <-. injection Hep' as <-.
    reflexivity.
  - intros g H.
    destruct (AzureOpenAI (ClientArgs k "2025-04-01-preview" ep)) eqn:Hc;
      [| discriminate H].
    injection H as <-. cbn. repeat split; try assumption.
  - intros r H. right; right. exists k, ep.
    destruct (AzureOpenAI (ClientArgs k "2025-04-01-preview" ep)) eqn:Hc;
      [discriminate H |].
    injection H as <-. repeat split.
Qed.

(** An endpoint the constructor refuses: with both variables set, the
    import raises what the constructor raises. *)
Example import_module_endpoint_refused :
  forall (r : raised),
    import_module
      (fun args =>
         if String.eqb (azure_endpoint args) "http://[::1"
         then ConstructRaises r else Constructed)
      [("AZURE_OPENAI_STT_TTS_KEY", "k");
       ("AZURE_OPENAI_STT_TTS_ENDPOINT", "http://[::1")]
    = inr r.
Proof. reflexivity. Qed.

Lemma replace_from_absent (old new s : string) :
  occurs old s = false -> replace_from old new s 0 = s.
Proof.
  induction s as [| c s IH]; [reflexivity |].
  cbn [occurs replace_from]. intro H.
  apply orb_false_elim in H as [Hp Ho].
  rewrite Hp. now rewrite IH.
Qed.

(** X2. For an endpoint ["https://" ++ rest] in which ["https"] does not
    occur again, the URL is ["wss://" ++ rest] followed by the path and
    the query with the API version and the deployment name. *)
Theorem websocket_url_upgrades_scheme :
  forall (rest : string),
    occurs "https" rest = false ->
    websocket_url_of ("https://" ++ rest)%string
    = ("wss://" ++ rest
       ++ "/openai/realtime?api-version=2025-04-01-preview&deployment=gpt-4o-mini-transcribe")%string.
Proof.
  intros rest H. unfold websocket_url_of, replace.
  cbn [String.eqb Ascii.eqb Bool.eqb andb].
  cbn [String.append replace_from String.prefix String.length Nat.sub].
  cbn [Ascii.eqb Bool.eqb andb].
  rewrite (replace_from_absent "https" "wss" rest H).
  reflexivity.
Qed.

(** X2, at an input: an Azure endpoint. *)
Lemma websocket_url_upgrades_scheme_witness :
  websocket_url_of "https://test.openai.azure.com"
  = "wss://test.openai.azure.com/openai/realtime?api-version=2025-04-01-preview&deployment=gpt-4o-mini-transcribe".
Proof.
  apply (websocket_url_upgrades_scheme "test.openai.azure.com").
  reflexivity.
Defined.

(** X3. An endpoint in which ["https"] does not occur is taken as it is:
    the URL is the endpoint followed by the path and the query. In
    particular an ["http://"] endpoint keeps its scheme. *)
Theorem websocket_url_without_https :
  forall (endpoint : string),
    occurs "https" endpoint = false ->
    websocket_url_of endpoint
    = (endpoint
       ++ "/openai/realtime?api-version=2025-04-01-preview&deployment=gpt-4o-mini-transcribe")%string.
Proof.
  intros endpoint H. unfold websocket_url_of, replace.
  cbn [String.eqb].
  now rewrite (replace_from_absent "https" "wss" endpoint H).
Qed.

(** X3, at an input: a plain-HTTP endpoint. *)
Lemma websocket_url_without_https_witness :
  websocket_url_of "http://localhost:8080"
  = "http://localhost:8080/openai/realtime?api-version=2025-04-01-preview&deployment=gpt-4o-mini-transcribe".
Proof.
  apply (websocket_url_without_https "http://localhost:8080").
  reflexivity.
Defined.

(** [replace] reaches every occurrence, also inside the host name. *)
Example websocket_url_replaces_everywhere :
  websocket_url_of "https://myhttps.example.com"
  = "wss://mywss.example.com/openai/realtime?api-version=2025-04-01-preview&deployment=gpt-4o-mini-transcribe".
Proof. reflexivity. Qed.

(** ** The controller's error paths *)

(** X4. When the audio stream cannot be opened, [run] makes no attempt
    to connect: nothing is sent or received, "Connecting..." is never
    printed, and the one [cleanup] that runs terminates the audio
    interface without stopping or closing a stream. The exception leaves
    [run], unless it is a [KeyboardInterrupt], which is reported
    instead. *)
Theorem run_when_open_fails :
  forall (env : environment) (r : raised),
    env_open env = OpenRaises r ->
    let w' := exec (run env) init in
    result (run env) init
      = match r with
        | KeyboardInterrupt => Return tt
        | _ => Raise r
        end
    /\ console w'
       = match r with
         | KeyboardInterrupt => interrupted_line
         | _ => []
         end
    /\ channel w' = []
    /\ device w' = [DevOpen FORMAT CHANNELS RATE CHUNK; DevTerminate]
    /\ stream w' = None
    /\ websocket w' = None
    /\ is_streaming w' = false.
Proof.
  intros env r Ho w'. subst w'.
  unfold result, exec, run, try_finally, try_except_interrupt, bind,
    setup_audio_stream.
  rewrite Ho. destruct r as [e | |]; repeat split; reflexivity.
Qed.

(** X4, at an input: no input device. *)
Lemma run_when_open_fails_witness :
  let env :=
    {| env_open := OpenRaises (Exc (Exception OSError "No Default Input Device Available"));
       env_connect := OpenOk; env_config := SendOk;
       env_schedule := [PumpTurn (ok_io [x00]%byte)] |} in
  result (run env) init
    = Raise (Exc (Exception OSError "No Default Input Device Available"))
  /\ console (exec (run env) init) = []
  /\ channel (exec (run env) init) = []
  /\ device (exec (run env) init)
     = [DevOpen FORMAT CHANNELS RATE CHUNK; DevTerminate]
  /\ stream (exec (run env) init) = None
  /\ websocket (exec (run env) init) = None
  /\ is_streaming (exec (run env) init) = false.
Proof.
  intro env.
  apply (@run_when_open_fails env
           (Exc (Exception OSError "No Default Input Device Available"))).
  reflexivity.
Defined.

(** X5. When the connection cannot be opened, no task is started,
    whatever the schedule holds: nothing is ever handed to the channel,
    no frame is read, [self.websocket] stays [None], and the stream is
    released, by [connect_and_run] and then once more by [run]. An
    [Exception] is reported as a connection error and [run] returns; a
    [KeyboardInterrupt] is reported as an interruption and [run]
    returns; a cancellation leaves [run]. *)
Theorem run_when_connect_fails :
  forall (env : environment) (r : raised),
    env_open env = OpenOk ->
    env_connect env = OpenRaises r ->
    let w' := exec (run env) init in
    result (run env) init
      = match r with
        | CancelledError => Raise CancelledError
        | _ => Return tt
        end
    /\ console w'
       = connecting_line
         ++ match r with
            | Exc e => connection_error e
            | KeyboardInterrupt => interrupted_line
            | CancelledError => []
            end
    /\ channel w' = []
    /\ device w'
       = [DevOpen FORMAT CHANNELS RATE CHUNK;
          DevStopStream; DevCloseStream; DevTerminate;
          DevStopStream; DevCloseStream; DevTerminate]
    /\ websocket w' = None
    /\ is_streaming w' = false.
Proof.
  intros env r Ho Hc w'. subst w'.
  unfold result, exec. rewrite (run_set_up env Ho).
  rewrite (connect_and_run_refused env set_up Hc).
  destruct r as [e | |]; repeat split; reflexivity.
Qed.

(** X5, at an input: the server refuses the handshake. *)
Lemma run_when_connect_fails_witness :
  let env :=
    {| env_open := OpenOk;
       env_connect := OpenRaises (Exc (Exception (OtherException "InvalidStatus")
                                         "server rejected WebSocket connection: HTTP 401"));
       env_config := SendOk;
       env_schedule := [PumpTurn (ok_io [x00]%byte)] |} in
  result (run env) init = Return tt
  /\ console (exec (run env) init)
     = [Chars "Connecting to Azure OpenAI Realtime API..."; Chars nl;
        Chars "Connection error: ";
        Chars "server rejected WebSocket connection: HTTP 401"; Chars nl]
  /\ channel (exec (run env) init) = []
  /\ device (exec (run env) init)
     = [DevOpen FORMAT CHANNELS RATE CHUNK;
        DevStopStream; DevCloseStream; DevTerminate;
        DevStopStream; DevCloseStream; DevTerminate]
  /\ websocket (exec (run env) init) = None
  /\ is_streaming (exec (run env) init) = false.
Proof.
  intro env.
  apply (@run_when_connect_fails env
           (Exc (Exception (OtherException "InvalidStatus")
                   "server rejected WebSocket connection: HTTP 401")));
    reflexivity.
Defined.

(** X6. When sending the session configuration fails, neither task is
    started, whatever the schedule holds: the configuration is the only
    message handed to the channel, the connection is closed, no frame is
    read, and the failure is reported like a failure to connect. *)
Theorem run_when_config_fails :
  forall (env : environment) (r : raised),
    env_open env = OpenOk ->
    env_connect env = OpenOk ->
    env_config env = SendRaises r ->
    let w' := exec (run env) init in
    result (run env) init
      = match r with
        | CancelledError => Raise CancelledError
        | _ => Return tt
        end
    /\ console w'
       = connecting_line ++ connected_line
         ++ match r with
            | Exc e => connection_error e
            | KeyboardInterrupt => interrupted_line
            | CancelledError => []
            end
    /\ channel w' = [ChSend session_config; ChClose]
    /\ device w'
       = [DevOpen FORMAT CHANNELS RATE CHUNK;
          DevStopStream; DevCloseStream; DevTerminate;
          DevStopStream; DevCloseStream; DevTerminate]
    /\ is_streaming w' = false.
Proof.
  intros env r Ho Hc Hs w'. subst w'.
  unfold result, exec. rewrite (run_set_up env Ho).
  rewrite (connect_and_run_config_fails env set_up Hc Hs).
  destruct r as [e | |]; repeat split; reflexivity.
Qed.

(** X6, at an input: the connection drops during the first send. *)
Lemma run_when_config_fails_witness :
  let env :=
    {| env_open := OpenOk; env_connect := OpenOk;
       env_config := SendRaises (Exc (Exception ConnectionClosed "closed"));
       env_schedule := [PumpTurn (ok_io [x00]%byte);
                        DispatcherTurn EndOfStream] |} in
  result (run env) init = Return tt
  /\ console (exec (run env) init)
     = [Chars "Connecting to Azure OpenAI Realtime API..."; Chars nl;
        Chars "Connected! Start speaking..."; Chars nl;
        Chars "Connection error: "; Chars "closed"; Chars nl]
  /\ channel (exec (run env) init) = [ChSend session_config; ChClose]
  /\ device (exec (run env) init)
     = [DevOpen FORMAT CHANNELS RATE CHUNK;
        DevStopStream; DevCloseStream; DevTerminate;
        DevStopStream; DevCloseStream; DevTerminate]
  /\ is_streaming (exec (run env) init) = false.
Proof.
  intro env.
  apply (@run_when_config_fails env
           (Exc (Exception ConnectionClosed "closed")));
    reflexivity.
Defined.

(** ** What the controller lets out *)

(** [connect_and_run] reports every [Exception] itself. *)
Lemma connect_and_run_no_exception (env : environment) (w : world) (e : exception) :
  result (connect_and_run env) w <> Raise (Exc e).
Proof.
  unfold result.
  destruct (env_connect env) as [| r] eqn:Hc.
  - destruct (env_config env) as [| r] eqn:Hs.
    + rewrite (connect_and_run_wait env w Hc Hs).
      destruct (await_gather (env_schedule env) Running Running (at_wait w))
        as [[[] | [e' | |] |] w2]; discriminate.
    + rewrite (connect_and_run_config_fails env w Hc Hs).
      destruct r as [e' | |]; discriminate.
  - rewrite (connect_and_run_refused env w Hc).
    destruct r as [e' | |]; discriminate.
Qed.

(** X7. No [Exception] ever leaves [connect_and_run]. A cancellation
    leaves it only when it strikes while connecting or while sending the
    configuration: one that ends the wait is swallowed, and
    [connect_and_run] tears down and returns normally. And the only place
    where [connect_and_run] can stay suspended is the wait for the two
    tasks. *)
Theorem connect_and_run_outcomes :
  forall (env : environment) (w : world),
    (forall e, result (connect_and_run env) w <> Raise (Exc e))
    /\ (result (connect_and_run env) w = Raise CancelledError ->
        env_connect env = OpenRaises CancelledError
        \/ (env_connect env = OpenOk
            /\ env_config env = SendRaises CancelledError))
    /\ (env_connect env = OpenOk -> env_config env = SendOk ->
        result (await_gather (env_schedule env) Running Running) (at_wait w)
          = Raise CancelledError ->
        result (connect_and_run env) w = Return tt)
    /\ (result (connect_and_run env) w = Suspended ->
        env_connect env = OpenOk /\ env_config env = SendOk
        /\ result (await_gather (env_schedule env) Running Running) (at_wait w)
           = Suspended).
Proof.
  intros env w. split; [intro e; apply connect_and_run_no_exception |].
  unfold result.
  destruct (env_connect env) as [| r] eqn:Hc.
  - destruct (env_config env) as [| r] eqn:Hs.
    + rewrite (connect_and_run_wait env w Hc Hs).
      destruct (await_gather (env_schedule env) Running Running (at_wait w))
        as [[[] | [e | |] |] w2]; cbn [fst];
        (split; [intro H; discriminate H |]);
        (split; [intros _ _ H; try discriminate H; reflexivity |]);
        intro H; try discriminate H; auto.
    + rewrite (connect_and_run_config_fails env w Hc Hs).
      destruct r as [e | |]; cbn [fst];
        (split; [intro H; try discriminate H; right; auto |]);
        (split; [intros _ H; discriminate H |]);
        intro H; discriminate H.
  - rewrite (connect_and_run_refused env w Hc).
    destruct r as [e | |]; cbn [fst];
      (split; [intro H; try discriminate H; left; auto |]);
      (split; [intros H; discriminate H |]);
      intro H; discriminate H.
Qed.

(** X8. A [KeyboardInterrupt] never leaves [run]: it is reported with
    "Interrupted by user. Closing..." and [run] returns. The only
    [Exception] that leaves [run] is the one raised by opening the audio
    stream; everything that goes wrong afterwards is reported or
    swallowed inside [connect_and_run]. *)
Theorem run_outcomes :
  forall (env : environment),
    (result (run env) init = Raise KeyboardInterrupt -> False)
    /\ (forall e, result (run env) init = Raise (Exc e)
                  <-> env_open env = OpenRaises (Exc e))
    /\ (env_open env = OpenOk ->
        result (connect_and_run env) set_up = Raise KeyboardInterrupt ->
        result (run env) init = Return tt
        /\ exists before,
             console (exec (run env) init) = before ++ interrupted_line).
Proof.
  intro env.
  destruct (env_open env) as [| r] eqn:Ho.
  - pose proof (connect_and_run_no_exception env set_up) as Hexc.
    unfold result, exec in *. rewrite (run_set_up env Ho).
    destruct (connect_and_run env set_up) as [[[] | [e | |] |] w1];
      cbn [fst snd] in *; try (now elim (Hexc e));
      (split; [intro H; discriminate H |]);
      (split; [intro e'; split; intro H; discriminate H |]);
      intros _ H; try discriminate H.
    split; [reflexivity |].
    rewrite released_spec. simpl. eexists. reflexivity.
  - assert (Hres : result (run env) init
                   = match r with
                     | KeyboardInterrupt => Return tt
                     | _ => Raise r
                     end).
    { unfold result, run, try_finally, try_except_interrupt, bind,
        setup_audio_stream.
      rewrite Ho. destruct r as [e | |]; reflexivity. }
    rewrite Hres.
    destruct r as [e | |];
      (split; [intro H; discriminate H |]);
      (split; [intro e'; split; intro H; try discriminate H;
               try (injection H as ->; reflexivity) |]);
      intro H; discriminate H.
Qed.

(** X7, at an input: the wait is cancelled at once. *)
Lemma connect_and_run_outcomes_witness :
  result (connect_and_run (session [CancelWait])) set_up = Return tt.
Proof.
  apply (proj1 (proj2 (proj2
           (connect_and_run_outcomes (session [CancelWait]) set_up))));
    reflexivity.
Defined.

(** X8, at an input: the user interrupts while the connection is being
    opened. *)
Lemma run_outcomes_witness :
  let env :=
    {| env_open := OpenOk; env_connect := OpenRaises KeyboardInterrupt;
       env_config := SendOk; env_schedule := [] |} in
  result (run env) init = Return tt
  /\ exists before, console (exec (run env) init) = before ++ interrupted_line.
Proof.
  intro env.
  apply (proj2 (proj2 (run_outcomes env))); reflexivity.
Defined.

(** ** The dispatcher *)

Lemma dispatch_loop_writes (inbox : list inbound) :
  forall w, exists o out, dispatch_loop inbox w = (o, write out w).
Proof.
  induction inbox as [| i inbox IH]; intro w.
  - exists Suspended, []. now rewrite write_nil.
  - destruct i as [m | | r].
    + rewrite dispatch_loop_recv.
      destruct (IH (write (output_of m) w)) as (o & out & ->).
      exists o, (output_of m ++ out). now rewrite write_write.
    + exists (Return tt), []. now rewrite write_nil.
    + exists (Raise r), []. now rewrite write_nil.
Qed.

(** X9. The dispatcher only writes to the console. Whatever arrives and
    however its loop ends (the channel closing, an error of the channel,
    a cancellation), it leaves the flag as it found it (it never clears
    [is_streaming]), makes no call on the channel or the audio device,
    and keeps the handles; and no [Exception] ever leaves it. *)
Theorem dispatcher_only_writes :
  forall (inbox : list inbound) (w : world),
    let w' := exec (handle_websocket_messages inbox) w in
    (exists out, w' = write out w)
    /\ is_streaming w' = is_streaming w
    /\ channel w' = channel w
    /\ device w' = device w
    /\ websocket w' = websocket w
    /\ (forall e, result (handle_websocket_messages inbox) w <> Raise (Exc e)).
Proof.
  intros inbox w w'.
  assert (H : exists o out,
            handle_websocket_messages inbox w = (o, write out w)
            /\ forall e, o <> Raise (Exc e)).
  { unfold handle_websocket_messages, try_except, bind, aiter.
    destruct (websocket w).
    - destruct (dispatch_loop_writes inbox w) as (o & out & ->).
      destruct o as [[] | [e | |] |].
      + exists (Return tt), out. split; [reflexivity | discriminate].
      + exists (Return tt), (out ++ receive_error e).
        split; [| discriminate].
        unfold websocket_error. rewrite py_print_write, write_write.
        reflexivity.
      + exists (Raise CancelledError), out.
        split; [reflexivity | discriminate].
      + exists (Raise KeyboardInterrupt), out.
        split; [reflexivity | discriminate].
      + exists Suspended, out. split; [reflexivity | discriminate].
    - eexists (Return tt), _. split; [| discriminate].
      unfold websocket_error. rewrite py_print_write. reflexivity. }
  destruct H as (o & out & Hrun & Ho).
  subst w'. unfold exec, result. rewrite Hrun. simpl.
  repeat split; try reflexivity; [eexists; reflexivity | exact Ho].
Qed.

(** While the channel stays open with nothing more to deliver, the
    dispatcher has handled what arrived and is suspended. *)
Lemma handle_websocket_messages_pending (ms : list message) (w : world) :
  present (websocket w) = true ->
  handle_websocket_messages (List.map Recv ms) w
  = (Suspended, write (outputs_of ms) w).
Proof.
  intro Hws.
  rewrite <- (app_nil_r (List.map Recv ms)).
  rewrite handle_websocket_messages_recv by exact Hws.
  now rewrite handle_websocket_messages_connected by exact Hws.
Qed.

(** X10. The dispatcher's loop ends where the channel ends. When the
    channel closes after some messages, the dispatcher returns having
    handled exactly those; when the channel raises an [Exception], it
    reports "Error handling WebSocket messages: ..." after them and
    returns as well; a cancellation or an interrupt leaves it. Whatever
    the inbound sequence holds after that point is never handled. And
    while the channel stays open with nothing more to deliver, the
    dispatcher stays suspended. *)
Theorem dispatcher_ends_with_channel :
  forall (ms : list message) (rest : list inbound) (w : world),
    present (websocket w) = true ->
    handle_websocket_messages (List.map Recv ms ++ EndOfStream :: rest) w
      = (Return tt, write (outputs_of ms) w)
    /\ (forall e,
          handle_websocket_messages
            (List.map Recv ms ++ RecvRaises (Exc e) :: rest) w
          = (Return tt, write (outputs_of ms ++ receive_error e) w))
    /\ (forall r, escapes r = true ->
          handle_websocket_messages
            (List.map Recv ms ++ RecvRaises r :: rest) w
          = (Raise r, write (outputs_of ms) w))
    /\ handle_websocket_messages (List.map Recv ms) w
       = (Suspended, write (outputs_of ms) w).
Proof.
  intros ms rest w Hws.
  assert (Hws' : present (websocket (write (outputs_of ms) w)) = true)
    by exact Hws.
  split; [| split; [| split]].
  - rewrite handle_websocket_messages_recv by exact Hws.
    now rewrite handle_websocket_messages_connected by exact Hws'.
  - intro e. rewrite handle_websocket_messages_recv by exact Hws.
    rewrite handle_websocket_messages_connected by exact Hws'.
    unfold try_except; simpl. unfold websocket_error.
    rewrite py_print_write, write_write. reflexivity.
  - intros r Hr. rewrite handle_websocket_messages_recv by exact Hws.
    rewrite handle_websocket_messages_connected by exact Hws'.
    destruct r as [e | |]; [discriminate Hr | reflexivity | reflexivity].
  - now apply handle_websocket_messages_pending.
Qed.

(** X10, at an input: a delta, then the connection breaks; the item
    that the sequence holds after the break is not handled. *)
Lemma dispatcher_ends_with_channel_witness :
  handle_websocket_messages
    [Recv (Document (VDict [("type", VStr TRANSCRIPTION_DELTA);
                            ("delta", VStr "Hel")]));
     RecvRaises (Exc (Exception ConnectionClosed "no close frame received"));
     Recv (Document (VDict [("type", VStr "item"); ("item", VStr "x")]))]
    connected
  = (Return tt,
     write
       [Chars "Event type:"; Chars " "; Chars TRANSCRIPTION_DELTA; Chars nl;
        Chars "Hel"; Chars " ";
        Chars "Error handling WebSocket messages: ";
        Chars "no close frame received"; Chars nl]
       connected).
Proof.
  apply (proj1 (proj2
    (@dispatcher_ends_with_channel
       [Document (VDict [("type", VStr TRANSCRIPTION_DELTA);
                         ("delta", VStr "Hel")])]
       [Recv (Document (VDict [("type", VStr "item"); ("item", VStr "x")]))]
       connected eq_refl))
    (Exception ConnectionClosed "no close frame received")).
Defined.

(** X11. The dispatcher keeps nothing from one message to the next. What
    it writes for a message is the same text in every state, so handling
    a sequence of messages in one go is handling a first part and then,
    from the state that leaves, the rest; and the text written for the
    whole is the text for the first part followed by the text for the
    rest. *)
Theorem dispatcher_is_memoryless :
  forall (ms1 ms2 : list message) (rest : list inbound) (w : world),
    present (websocket w) = true ->
    (forall m w1, handle_message m w1 = (Return tt, write (output_of m) w1))
    /\ handle_websocket_messages (List.map Recv (ms1 ++ ms2) ++ rest) w
       = handle_websocket_messages (List.map Recv ms2 ++ rest)
           (exec (handle_websocket_messages (List.map Recv ms1)) w)
    /\ console
         (exec (handle_websocket_messages (List.map Recv (ms1 ++ ms2))) w)
       = console w ++ outputs_of ms1 ++ outputs_of ms2.
Proof.
  intros ms1 ms2 rest w Hws.
  pose proof (handle_websocket_messages_pending ms1 w Hws) as H1.
  pose proof (handle_websocket_messages_pending (ms1 ++ ms2) w Hws) as H12.
  split; [exact handle_message_write | split].
  - unfold exec. rewrite H1. cbn [snd].
    rewrite List.map_app, <- app_assoc.
    now rewrite handle_websocket_messages_recv by exact Hws.
  - unfold exec. rewrite H12. simpl. now rewrite outputs_of_app.
Qed.

(** X11, at an input: a delta and an item, handled together or one after
    the other. *)
Lemma dispatcher_is_memoryless_witness :
  console
    (exec (handle_websocket_messages
             (List.map Recv
                ([Document (VDict [("type", VStr TRANSCRIPTION_DELTA);
                                   ("delta", VStr "Hel")])]
                 ++ [Document (VDict [("type", VStr "item");
                                      ("item", VStr "x")])])))
       connected)
  = [Chars "Event type:"; Chars " "; Chars TRANSCRIPTION_DELTA; Chars nl;
     Chars "Hel"; Chars " ";
     Chars "Event type:"; Chars " "; Chars "item"; Chars nl;
     Chars (nl ++ "Final transcript:")%string; Chars " "; Chars "x"; Chars nl].
Proof.
  apply (proj2 (proj2
    (@dispatcher_is_memoryless
       [Document (VDict [("type", VStr TRANSCRIPTION_DELTA);
                         ("delta", VStr "Hel")])]
       [Document (VDict [("type", VStr "item"); ("item", VStr "x")])]
       [] connected eq_refl))).
Defined.

(** X12. An event whose type is none of the six the dispatcher has a
    branch for (an unknown name, a type that is not a string, or no
    ["type"] key at all) gets its event-type line and nothing else,
    whatever other fields it carries. *)
Theorem unknown_kind_only_announced :
  forall (d : list (string * value)) (w : world),
    known_kind (event_type_of d) = false ->
    handle_message (Document (VDict d)) w
    = (Return tt, write (event_type_line (event_type_of d)) w).
Proof.
  intros d w H. unfold known_kind in H.
  repeat (apply orb_false_elim in H as [H ?]).
  rewrite handle_message_write, output_of_event.
  assert (Hk : kind_output d = []).
  { unfold kind_output, exec, handle_kind.
    repeat match goal with
    | Hc : eq_str (event_type_of d) _ = false |- _ => rewrite Hc; clear Hc
    end.
    reflexivity. }
  now rewrite Hk, app_nil_r.
Qed.

(** X12, at an input: an event without a ["type"] key, carrying a
    transcript. *)
Lemma unknown_kind_only_announced_witness :
  handle_message (Document (VDict [("transcript", VStr "Hello")])) connected
  = (Return tt,
     write [Chars "Event type:"; Chars " "; Chars ""; Chars nl] connected).
Proof.
  apply (@unknown_kind_only_announced [("transcript", VStr "Hello")] connected).
  reflexivity.
Defined.

(** X13. For an event of a kind that displays a field ([delta],
    [transcript], [text] or [item]), a field that is missing or holds a
    falsy value (the empty string, [None], zero, an empty list or dict)
    is not displayed: the event gets its event-type line and nothing
    else. *)
Theorem empty_payload_not_displayed :
  forall (d : list (string * value)) (kind field : string) (w : world),
    is_kind kind d ->
    payload_field kind = Some field ->
    truthy (dict_get d field (VStr "")) = false ->
    handle_message (Document (VDict d)) w
    = (Return tt, write (event_type_line (VStr kind)) w).
Proof.
  intros d kind field w Hk Hf Ht. unfold is_kind in Hk.
  rewrite handle_message_write, output_of_event, Hk.
  assert (Hout : kind_output d = []).
  { unfold kind_output, exec, handle_kind. rewrite Hk.
    unfold payload_field in Hf. unfold eq_str.
    repeat match type of Hf with
    | (if String.eqb kind ?k then _ else _) = _ =>
        destruct (String.eqb kind k);
        [injection Hf as <-; unfold get, bind, ret, when_truthy;
         rewrite Ht; reflexivity |]
    end.
    discriminate Hf. }
  now rewrite Hout, app_nil_r.
Qed.

(** X13, at an input: a completed event whose transcript is missing. *)
Lemma empty_payload_not_displayed_witness :
  handle_message
    (Document (VDict [("type", VStr TRANSCRIPTION_COMPLETED)])) connected
  = (Return tt,
     write [Chars "Event type:"; Chars " "; Chars TRANSCRIPTION_COMPLETED;
            Chars nl] connected).
Proof.
  apply (@empty_payload_not_displayed
           [("type", VStr TRANSCRIPTION_COMPLETED)]
           TRANSCRIPTION_COMPLETED "transcript" connected);
    reflexivity.
Defined.

(** What the remaining branches display. A response-text delta with
    a non-empty string is shown after the inbox mark, a finished response
    text after the letter mark, an item after "Final transcript:" on a
    line of its own, each ending in a newline; an error event is echoed
    whole after "Error event:", whatever it carries. *)
Theorem other_kinds_displayed :
  forall (d : list (string * value)) (s : string),
    s <> "" ->
    (is_kind "response.text.delta" d ->
     dict_get d "delta" (VStr "") = VStr s ->
     kind_output d = [Chars "📥: "; Chars s; Chars nl])
    /\ (is_kind "response.text.done" d ->
        dict_get d "text" (VStr "") = VStr s ->
        kind_output d = [Chars "📨:"; Chars " "; Chars s; Chars nl])
    /\ (is_kind "item" d ->
        dict_get d "item" (VStr "") = VStr s ->
        kind_output d
        = [Chars (nl ++ "Final transcript:")%string; Chars " "; Chars s;
           Chars nl])
    /\ (is_kind "error" d ->
        kind_output d
        = [Chars "Error event:"; Chars " "; StrOf (VDict d); Chars nl]).
Proof.
  intros d s Hne.
  assert (Ht : truthy (VStr s) = true).
  { simpl. now destruct (String.eqb_spec s ""). }
  repeat split; intro Hk; try intro Hf; unfold is_kind in Hk;
    unfold kind_output, exec, handle_kind; rewrite Hk; cbn [eq_str];
    cbn [String.eqb Ascii.eqb Bool.eqb andb TRANSCRIPTION_DELTA
         TRANSCRIPTION_COMPLETED];
    unfold get, bind, ret, when_truthy; rewrite ?Hf, ?Ht; reflexivity.
Qed.

(** The same, at an input: an item event. *)
Lemma other_kinds_displayed_witness :
  kind_output [("type", VStr "item"); ("item", VStr "x")]
  = [Chars (nl ++ "Final transcript:")%string; Chars " "; Chars "x"; Chars nl].
Proof.
  apply (proj1 (proj2 (proj2
    (@other_kinds_displayed [("type", VStr "item"); ("item", VStr "x")] "x"
       ltac:(discriminate)))));
    reflexivity.
Defined.

(** ** The pump *)

(** X14. The pump needs both handles. Without a connection
    ([self.websocket] is [None]) [stream_microphone] returns at its loop
    test, reading nothing, even with the flag set. With a connection and
    the flag set but no audio stream ([self.stream] is [None], as before
    [setup_audio_stream]), its first pass fails on [self.stream.read]:
    the [AttributeError] is reported, the flag is cleared, and no call
    reaches the audio device or the channel. *)
Theorem pump_without_handles :
  forall (io : pump_io) (ios : list pump_io) (w : world),
    (websocket w = None -> stream_microphone ios w = (Return tt, w))
    /\ (pump_test w = true -> stream w = None ->
        stream_microphone (io :: ios) w
        = (Return tt,
           stopped
             (write (streaming_error (no_attribute "NoneType" "read")) w))).
Proof.
  intros io ios w. split.
  - intro Hws.
    assert (Ht : pump_test w = false).
    { unfold pump_test. rewrite Hws. apply andb_false_r. }
    destruct ios as [| io' ios].
    + now rewrite stream_microphone_nil, Ht.
    + now rewrite stream_microphone_cons, pump_step_not_streaming.
  - intros Ht Hst. rewrite stream_microphone_cons.
    unfold pump_step, try_except. rewrite Ht.
    unfold pump_body, bind, stream_read. rewrite Hst. reflexivity.
Qed.

(** X14, at an input: a connected transcriber whose audio stream was
    never set up. *)
Lemma pump_without_handles_witness :
  stream_microphone [ok_io [x00]%byte; ok_io [x01]%byte] connected
  = (Return tt,
     stopped
       (write (streaming_error (no_attribute "NoneType" "read")) connected)).
Proof.
  apply (proj2 (pump_without_handles (ok_io [x00]%byte) [ok_io [x01]%byte]
                  connected));
    reflexivity.
Defined.

Lemma pump_step_during_wait (io : pump_io) (w : world) :
  during_wait w (snd (pump_step io w)).
Proof.
  pose proof (pump_turn_during_wait io w) as H.
  unfold exec, turn in H.
  destruct (pump_step io w) as [[[|] | r |] w1]; exact H.
Qed.

Lemma pump_step_no_exception (io : pump_io) (w : world) (e : exception) :
  fst (pump_step io w) <> Raise (Exc e).
Proof.
  unfold pump_step, try_except.
  destruct (pump_test w); [| discriminate].
  unfold bind.
  destruct (pump_body io w) as [[[] | [e' | |] |] w1]; discriminate.
Qed.

Lemma pump_step_flag (io : pump_io) (w : world) :
  is_streaming (snd (pump_step io w)) = true -> is_streaming w = true.
Proof.
  destruct (is_streaming w) eqn:Hf; [reflexivity |].
  rewrite pump_step_not_streaming
    by (unfold pump_test; now rewrite Hf).
  simpl. now rewrite Hf.
Qed.

(** X15. For every behaviour of the device and the channel,
    [stream_microphone] lets no [Exception] out, never sets the flag, and
    keeps the three handles; on the audio device it only reads, and to
    the channel it hands exactly one audio-append message per frame
    read, in the order of the reads: it never closes the channel and
    never releases the device. *)
Theorem pump_effects :
  forall (ios : list pump_io) (w : world),
    let w' := exec (stream_microphone ios) w in
    (forall e, result (stream_microphone ios) w <> Raise (Exc e))
    /\ (is_streaming w' = true -> is_streaming w = true)
    /\ during_wait w w'.
Proof.
  induction ios as [| io ios IH]; intro w; cbv zeta.
  - unfold exec, result. rewrite stream_microphone_nil.
    destruct (pump_test w); simpl;
      (split; [intro e; discriminate |]);
      (split; [auto | apply during_wait_refl]).
  - pose proof (pump_step_during_wait io w) as Hd.
    pose proof (pump_step_no_exception io w) as He.
    pose proof (pump_step_flag io w) as Hf.
    unfold exec, result in *. rewrite stream_microphone_cons.
    destruct (pump_step io w) as [[[|] | r |] w1]; cbn [fst snd] in *.
    + destruct (IH w1) as (IH1 & IH2 & IH3). unfold exec, result in *.
      split; [exact IH1 |].
      split; [intro H; apply Hf, IH2, H |].
      eapply during_wait_trans; eassumption.
    + split; [intro e; discriminate |]. split; assumption.
    + split; [| split; assumption].
      intros e H. apply (He e). injection H as ->. reflexivity.
    + split; [intro e; discriminate |]. split; assumption.
Qed.

(** ** The wait *)

Lemma pump_turn_keeps_waiting (io : pump_io) (w : world) :
  keeps_waiting (PumpTurn io) = true ->
  exists t w1,
    turn (pump_step io) w = (Return t, w1) /\ (t = Running \/ t = Returned).
Proof.
  destruct w as [ai st fl ws co ch dv], io as [r sr].
  unfold keeps_waiting, turn, pump_step, try_except, pump_test; simpl.
  intro H.
  destruct fl; simpl; [| eauto].
  destruct ws as [h |]; simpl; [| eauto].
  unfold pump_body, bind, stream_read; simpl.
  destruct st as [s |]; simpl; [| eauto].
  destruct r as [f | [e | |]]; simpl in *; try discriminate H; eauto.
  destruct sr as [| [e | |]]; simpl in *; try discriminate H; eauto.
Qed.

Lemma await_gather_keeps_waiting (sched : list event) :
  forall (a : task) (w : world),
    forallb keeps_waiting sched = true ->
    a = Running \/ a = Returned ->
    result (await_gather sched a Running) w = Suspended.
Proof.
  induction sched as [| ev sched IH]; intros a w Hk Ha.
  - destruct Ha as [-> | ->]; reflexivity.
  - cbn [forallb] in Hk. apply andb_prop in Hk as [Hev Hk].
    assert (Hg : gather a Running = Suspended)
      by (destruct Ha as [-> | ->]; reflexivity).
    cbn [await_gather]. rewrite Hg.
    destruct ev as [io | i | |].
    + destruct Ha as [-> | ->].
      * destruct (pump_turn_keeps_waiting io w Hev) as (t & w1 & Ht & Hcase).
        unfold result, bind. rewrite Ht.
        apply (IH t w1 Hk Hcase).
      * apply IH; auto.
    + destruct i as [m | | r]; try discriminate Hev.
      unfold result, bind. rewrite dispatch_step_recv.
      apply (IH a _ Hk Ha).
    + unfold result, bind; simpl. apply (IH a _ Hk Ha).
    + discriminate Hev.
Qed.

(** X16. As long as the channel stays open and keeps delivering, [run]
    does not return, whatever happens to the pump in the meantime (it
    may go on sending, fail and return, or find the flag cleared from
    outside). The run stays suspended in the wait, and nothing has been
    torn down: the channel has been handed the configuration and the
    audio messages and has not been closed, and the audio device has
    been opened and read from and has not been released. *)
Theorem run_waits_for_dispatcher :
  forall (sched : list event),
    forallb keeps_waiting sched = true ->
    let w' := exec (run (session sched)) init in
    result (run (session sched)) init = Suspended
    /\ (exists reads,
          forallb is_read reads = true
          /\ device w' = DevOpen FORMAT CHANNELS RATE CHUNK :: reads
          /\ channel w'
             = ChSend session_config
               :: List.map (fun f => ChSend (audio_append f))
                    (frames_read reads)).
Proof.
  intros sched Hk w'. subst w'.
  pose proof (@await_gather_keeps_waiting sched Running (at_wait set_up) Hk
                (or_introl eq_refl)) as Hres.
  pose proof (await_gather_during_wait sched Running Running (at_wait set_up))
    as (_ & _ & _ & reads & Hr & Hd & Hc).
  unfold result, exec in *.
  rewrite (@run_set_up (session sched) eq_refl).
  rewrite (@connect_and_run_wait (session sched) set_up eq_refl eq_refl).
  change (env_schedule (session sched)) with sched.
  destruct (await_gather sched Running Running (at_wait set_up)) as [o w2].
  cbn [fst snd] in *. subst o. cbn [fst snd].
  split; [reflexivity |].
  exists reads. split; [exact Hr |]. split; [exact Hd | exact Hc].
Qed.

(** X16, at an input: the pump sends a frame, the device fails, the flag
    is cleared again from outside, and two messages arrive. *)
Lemma run_waits_for_dispatcher_witness :
  result
    (run (session
            [PumpTurn (ok_io [x00; x01]%byte);
             DispatcherTurn (Recv (malformed "{bad"));
             PumpTurn (PumpIO (ReadRaises (Exc (Exception OSError "Stream closed")))
                         SendOk);
             ExternalStop;
             DispatcherTurn
               (Recv (Document (VDict [("type", VStr "item");
                                       ("item", VStr "x")])))]))
    init
  = Suspended.
Proof.
  apply (proj1
    (@run_waits_for_dispatcher
       [PumpTurn (ok_io [x00; x01]%byte);
        DispatcherTurn (Recv (malformed "{bad"));
        PumpTurn (PumpIO (ReadRaises (Exc (Exception OSError "Stream closed")))
                    SendOk);
        ExternalStop;
        DispatcherTurn
          (Recv (Document (VDict [("type", VStr "item");
                                  ("item", VStr "x")])))]
       eq_refl)).
Defined.

(** ** The audio message *)

(** X17. The message built from a frame can be read back: its ["type"]
    is the append type, and decoding the Base64 text of its ["audio"]
    field gives the frame's bytes again, for every frame (of any length,
    the empty one included). So two frames that differ give messages that
    differ. *)
Theorem audio_message_round_trip :
  forall (audio_data : frame),
    decode_audio (audio_append audio_data) = Some audio_data
    /\ eq_str
         (match audio_append audio_data with
          | VDict d => dict_get d "type" VNone
          | _ => VNone
          end) "input_audio_buffer.append" = true
    /\ (forall other,
          audio_append other = audio_append audio_data -> other = audio_data).
Proof.
  intro audio_data.
  assert (Hdec : forall f, decode_audio (audio_append f) = Some f).
  { intro f. unfold decode_audio, audio_append. cbn [dict_get String.eqb
      Ascii.eqb Bool.eqb andb]. apply b64decode_b64encode. }
  split; [apply Hdec | split; [reflexivity |]].
  intros other H. apply (f_equal decode_audio) in H.
  rewrite !Hdec in H. now injection H.
Qed.

(** ** The flag and the connection handle *)

(** X18. During the wait the flag is only ever cleared: if it is set
    when the wait ends or hangs, it was set when the wait began. And
    whenever [connect_and_run] completes, with or without a connection,
    the flag is false. *)
Theorem flag_only_cleared :
  forall (env : environment) (sched : list event) (a m : task) (w : world),
    (is_streaming (exec (await_gather sched a m) w) = true ->
     is_streaming w = true)
    /\ (result (connect_and_run env) w <> Suspended ->
        is_streaming (exec (connect_and_run env) w) = false).
Proof.
  intros env sched a m w. split.
  - intro H. destruct (is_streaming w) eqn:Hf; [reflexivity |].
    destruct (@await_gather_stopped sched a m w Hf) as (H1 & _).
    rewrite H1 in H. discriminate H.
  - intro Hdone.
    destruct (connect_and_run_ends_released env w Hdone) as (w1 & -> & _).
    rewrite released_spec. reflexivity.
Qed.

(** X18, at an input: the wait is cancelled at once and
    [connect_and_run] completes. *)
Lemma flag_only_cleared_witness :
  is_streaming
    (exec (connect_and_run (session [CancelWait])) set_up) = false.
Proof.
  apply (proj2 (flag_only_cleared (session [CancelWait]) [] Running Running
                  set_up)).
  vm_compute. discriminate.
Defined.

(** X19. [connect_and_run] never resets [self.websocket]. Once the
    connection has been opened the attribute holds it from then on, also
    after the connection has been closed on the way out; when the
    connection could not be opened the attribute is left as it was. *)
Theorem websocket_handle_retained :
  forall (env : environment) (w : world),
    let w' := exec (connect_and_run env) w in
    (env_connect env = OpenOk ->
     websocket w' = Some Connection
     /\ (result (connect_and_run env) w <> Suspended ->
         exists ch, channel w' = ch ++ [ChClose]))
    /\ (forall r, env_connect env = OpenRaises r ->
        websocket w' = websocket w /\ channel w' = channel w).
Proof.
  intros env w w'. subst w'. unfold exec, result. split.
  - intro Hc. destruct (env_config env) as [| r] eqn:Hs.
    + pose proof (await_gather_during_wait (env_schedule env) Running Running
                    (at_wait w)) as (_ & _ & Hws & _).
      unfold exec in Hws.
      rewrite (connect_and_run_wait env w Hc Hs).
      destruct (await_gather (env_schedule env) Running Running (at_wait w))
        as [[[] | [e | |] |] w2]; cbn [fst snd] in *;
        rewrite ?released_spec; simpl; rewrite ?app_nil_r;
        (split; [exact Hws |]); intro Hd;
        try (now elim Hd); eexists; reflexivity.
    + rewrite (connect_and_run_config_fails env w Hc Hs).
      destruct r as [e | |]; cbn [fst snd];
        rewrite released_spec; simpl; rewrite ?app_nil_r;
        (split; [reflexivity |]); intros _;
        exists (channel w ++ [ChSend session_config]); reflexivity.
  - intros r Hc. rewrite (connect_and_run_refused env w Hc).
    destruct r as [e | |]; cbn [snd]; rewrite released_spec; simpl;
      rewrite ?app_nil_r; split; reflexivity.
Qed.

(** X19, at an input: the channel closes, the pump's send fails, the
    run tears down; the attribute still holds the connection. *)
Lemma websocket_handle_retained_witness :
  let env :=
    session
      [DispatcherTurn EndOfStream;
       PumpTurn (PumpIO (ReadOk [x00]%byte)
                   (SendRaises (Exc (Exception ConnectionClosed "closed"))))] in
  websocket (exec (connect_and_run env) set_up) = Some Connection
  /\ channel (exec (connect_and_run env) set_up)
     = [ChSend session_config; ChSend (audio_append [x00]%byte); ChClose].
Proof.
  intro env. split.
  - apply (proj1 (websocket_handle_retained env set_up)). reflexivity.
  - reflexivity.
Defined.

(** ** When the run does return *)

Lemma pump_turn_failing_returns (io : pump_io) (e : exception) (w : world) :
  fails_with io e ->
  exists w1, turn (pump_step io) w = (Return Returned, w1).
Proof.
  destruct w as [ai st fl ws co ch dv], io as [r sr].
  unfold fails_with, turn, pump_step, try_except, pump_test; simpl.
  intro H.
  destruct fl; simpl; [| eauto].
  destruct ws as [h |]; simpl; [| eauto].
  unfold pump_body, bind, stream_read; simpl.
  destruct st as [s |]; simpl; [| eauto].
  destruct H as [-> | [[f ->] ->]]; simpl; eauto.
Qed.

Lemma dispatch_turn_ending_returns (i : inbound) (w : world) :
  ends_dispatcher i = true ->
  exists w1, turn (dispatch_step i) w = (Return Returned, w1).
Proof.
  destruct i as [m | | [e | |]]; intro H; try discriminate H.
  - exists w. reflexivity.
  - eexists. reflexivity.
Qed.

(** The wait passes over a stretch of events that leave the dispatcher
    in its loop. *)
Lemma await_gather_prefix (pre rest : list event) :
  forall (a : task) (w : world),
    forallb keeps_waiting pre = true ->
    a = Running \/ a = Returned ->
    exists a' w',
      (a' = Running \/ a' = Returned)
      /\ await_gather (pre ++ rest) a Running w
         = await_gather rest a' Running w'.
Proof.
  induction pre as [| ev pre IH]; intros a w Hk Ha.
  - exists a, w. auto.
  - cbn [forallb] in Hk. apply andb_prop in Hk as [Hev Hk].
    assert (Hg : gather a Running = Suspended)
      by (destruct Ha as [-> | ->]; reflexivity).
    cbn [app await_gather]. rewrite Hg.
    destruct ev as [io | i | |].
    + destruct Ha as [-> | ->].
      * destruct (pump_turn_keeps_waiting io w Hev) as (t & w1 & Ht & Hcase).
        unfold bind at 1. rewrite Ht. apply (IH t w1 Hk Hcase).
      * apply IH; auto.
    + destruct i as [m | | r]; try discriminate Hev.
      unfold bind at 1. rewrite dispatch_step_recv.
      apply (IH a _ Hk Ha).
    + unfold bind at 1. cbn [set_is_streaming]. apply (IH a _ Hk Ha).
    + discriminate Hev.
Qed.

(** X20. The run does return once both loops have ended. After any
    stretch in which the dispatcher only receives messages, when the
    channel ends (it closes, or its iterator raises an [Exception]) and
    the pump's next pass fails on its read or its send, [run] returns
    normally, torn down, with the flag false; whatever the schedule holds
    after that is of no account. *)
Theorem run_returns_after_channel_ends :
  forall (pre rest : list event) (i : inbound) (io : pump_io) (e : exception),
    forallb keeps_waiting pre = true ->
    ends_dispatcher i = true ->
    fails_with io e ->
    let env := session (pre ++ DispatcherTurn i :: PumpTurn io :: rest) in
    result (run env) init = Return tt
    /\ is_streaming (exec (run env) init) = false
    /\ exists ch, channel (exec (run env) init) = ch ++ [ChClose].
Proof.
  intros pre rest i io e Hk Hi Hio env.
  assert (Hwait : exists w2,
    await_gather (env_schedule env) Running Running (at_wait set_up)
    = (Return tt, w2)).
  { change (env_schedule env)
      with (pre ++ DispatcherTurn i :: PumpTurn io :: rest).
    destruct (@await_gather_prefix pre
                (DispatcherTurn i :: PumpTurn io :: rest)
                Running (at_wait set_up) Hk (or_introl eq_refl))
      as (a' & w' & Ha' & ->).
    destruct (@dispatch_turn_ending_returns i w' Hi) as [w1 Hd].
    assert (Hg : gather a' Running = Suspended)
      by (destruct Ha' as [-> | ->]; reflexivity).
    cbn [await_gather]. rewrite Hg. unfold bind at 1. rewrite Hd.
    destruct Ha' as [-> | ->]; cbn [await_gather gather].
    - destruct (@pump_turn_failing_returns io e w1 Hio) as [w2 Hp].
      unfold bind at 1. rewrite Hp.
      destruct rest; cbn [await_gather gather]; eexists; reflexivity.
    - eexists; reflexivity. }
  destruct Hwait as [w2 Hwait].
  unfold result, exec.
  rewrite (@run_set_up env eq_refl).
  rewrite (@connect_and_run_wait env set_up eq_refl eq_refl).
  rewrite Hwait. cbn [fst snd].
  split; [reflexivity |].
  rewrite !released_spec. simpl. rewrite !app_nil_r.
  split; [reflexivity |]. eexists. reflexivity.
Qed.

(** X20, at an input: two frames go out, a message arrives, the server
    closes the channel and the pump's next send fails. *)
Lemma run_returns_after_channel_ends_witness :
  let env :=
    session
      ([PumpTurn (ok_io [x00]%byte);
        DispatcherTurn (Recv (Document (VDict [("type", VStr "item");
                                               ("item", VStr "x")])));
        PumpTurn (ok_io [x01]%byte)]
       ++ DispatcherTurn EndOfStream
          :: PumpTurn (PumpIO (ReadOk [x02]%byte)
                         (SendRaises (Exc (Exception ConnectionClosed "closed"))))
          :: [PumpTurn (ok_io [x03]%byte)]) in
  result (run env) init = Return tt
  /\ is_streaming (exec (run env) init) = false
  /\ exists ch, channel (exec (run env) init) = ch ++ [ChClose].
Proof.
  apply (@run_returns_after_channel_ends
           [PumpTurn (ok_io [x00]%byte);
            DispatcherTurn (Recv (Document (VDict [("type", VStr "item");
                                                   ("item", VStr "x")])));
            PumpTurn (ok_io [x01]%byte)]
           [PumpTurn (ok_io [x03]%byte)]
           EndOfStream
           (PumpIO (ReadOk [x02]%byte)
              (SendRaises (Exc (Exception ConnectionClosed "closed"))))
           (Exception ConnectionClosed "closed")).
  - reflexivity.
  - reflexivity.
  - right. split; [eexists; reflexivity | reflexivity].
Defined.
